(** * juicyllama/typeorm: a shallow embedding of the query helper

    The development follows the two TypeScript sources of the package:
    [TypeOrm.ts] (the free option helpers) and [Query.ts] (the [Query]
    class).  Pure helpers become functions, helpers that may throw return
    [Res], and everything that talks to the wrapped ORM repository runs in
    a state-and-exception monad over an abstract database state. *)

From Stdlib Require Import String Ascii List ZArith Lia Bool.
From stdpp Require Import base option strings gmap pretty.
Import ListNotations.
Local Open Scope string_scope.
Local Open Scope Z_scope.
Set Warnings "-register-all".

(** ** JavaScript strings and primitive values *)

Module Js.

(** [String.prototype.indexOf] for a one-character needle; [-1] when the
    character does not occur. *)
Fixpoint indexOf_from (c : ascii) (s : string) (i : Z) : Z :=
  match s with
  | EmptyString => -1
  | String a s' => if Ascii.eqb a c then i else indexOf_from c s' (i + 1)
  end.

Definition indexOf (c : ascii) (s : string) : Z := indexOf_from c s 0.

(** [s.slice(from, to)] and [s.slice(from)] for indices inside the string. *)
Definition slice (s : string) (from to : Z) : string :=
  substring (Z.to_nat from) (Z.to_nat (to - from)) s.

Definition slice_from (s : string) (from : Z) : string :=
  substring (Z.to_nat from) (String.length s - Z.to_nat from) s.

(** [s.includes(c)] for a one-character needle. *)
Fixpoint includes (c : ascii) (s : string) : bool :=
  match s with
  | EmptyString => false
  | String a s' => Ascii.eqb a c || includes c s'
  end.

(** [s.split(c)] for a one-character separator: never the empty list,
    [split c "" = [""]]. *)
Fixpoint split (c : ascii) (s : string) : list string :=
  match s with
  | EmptyString => [EmptyString]
  | String a s' =>
      if Ascii.eqb a c then EmptyString :: split c s'
      else match split c s' with
           | [] => [String a EmptyString]
           | h :: t => String a h :: t
           end
  end.

(** [l.join(sep)] on an array of strings. *)
Fixpoint join (sep : string) (l : list string) : string :=
  match l with
  | [] => EmptyString
  | [x] => x
  | x :: rest => x ++ sep ++ join sep rest
  end.

(** [toUpperCase] on the ASCII letters; other bytes are left alone. *)
Definition upper_ascii (a : ascii) : ascii :=
  let n := nat_of_ascii a in
  if (Nat.leb 97 n && Nat.leb n 122)%bool then ascii_of_nat (n - 32) else a.

Fixpoint toUpperCase (s : string) : string :=
  match s with
  | EmptyString => EmptyString
  | String a s' => String (upper_ascii a) (toUpperCase s')
  end.

(** [Array.prototype.includes] on an array of strings. *)
Definition arr_includes (x : string) (l : list string) : bool :=
  existsb (String.eqb x) l.

(** The primitive values that flow through the helper: record fields,
    primary-key values and operands of find operators. *)
Inductive Prim : Type :=
| Undefined
| Str (s : string)
| Num (n : Z).

(** JavaScript truthiness ([NaN] and [null] are not modelled). *)
Definition truthy (v : Prim) : bool :=
  match v with
  | Undefined => false
  | Str s => negb (String.eqb s "")
  | Num n => negb (n =? 0)
  end.

(** Conversion used by template literals. *)
Definition to_string (v : Prim) : string :=
  match v with
  | Undefined => "undefined"
  | Str s => s
  | Num n => pretty n
  end.

(** Plain objects with string keys, in property order.  [set] is the
    assignment [o[k] = v] on own properties: it overwrites in place or
    appends. *)
Definition Obj (V : Type) : Type := list (string * V).

Section Objects.
Context {V : Type}.

Fixpoint get (k : string) (o : Obj V) : option V :=
  match o with
  | [] => None
  | (k', v) :: rest => if String.eqb k' k then Some v else get k rest
  end.

Fixpoint set (k : string) (v : V) (o : Obj V) : Obj V :=
  match o with
  | [] => [(k, v)]
  | (k', v') :: rest =>
      if String.eqb k' k then (k', v) :: rest else (k', v') :: set k v rest
  end.

(** The spread [{...a, ...b}]: the properties of [b] are assigned onto a
    copy of [a], one level deep. *)
Definition spread (a b : Obj V) : Obj V :=
  fold_left (fun acc kv => set (fst kv) (snd kv) acc) b a.

(** [delete o[k]]. *)
Fixpoint remove (k : string) (o : Obj V) : Obj V :=
  match o with
  | [] => []
  | (k', v) :: rest =>
      if String.eqb k' k then remove k rest else (k', v) :: remove k rest
  end.

Definition keys (o : Obj V) : list string := map fst o.

End Objects.

End Js.

(** ** Results of code that may throw *)

Inductive Res (A : Type) : Type :=
| Ok (a : A)
| Throw (message : string).
Arguments Ok {A} a.
Arguments Throw {A} message.

Definition res_bind {A B} (r : Res A) (k : A -> Res B) : Res B :=
  match r with
  | Ok a => k a
  | Throw m => Throw m
  end.


(** ** Repository metadata

    The repository handle is owned by the ORM; the helper only reads the
    table name, the columns (property name, primary and nullable flags)
    and the property names of the relations. *)

Record ColumnMetadata : Type := {
  column_propertyName : string;
  isPrimary : bool;
  isNullable : bool
}.

Record EntityMetadata : Type := {
  tableName : string;
  columns : list ColumnMetadata;
  relations : list string
}.

Record Repository : Type := { metadata : EntityMetadata }.

(** A record of the entity ([DeepPartial<T>]): fields in property order. *)
Definition Entity : Type := Js.Obj Js.Prim.

(** [record[field]]: [undefined] when the field is absent. *)
Definition field (record : Entity) (name : string) : Js.Prim :=
  match Js.get name record with
  | Some v => v
  | None => Js.Undefined
  end.

(** ** Find operators, where clauses, options *)

Inductive FindOperator : Type :=
| MoreThan (value : Js.Prim)
| MoreThanOrEqual (value : Js.Prim)
| LessThan (value : Js.Prim)
| LessThanOrEqual (value : Js.Prim)
| Equal (value : Js.Prim)
| Not (operand : FindOperator)
| IsNull
| Like (pattern : string)
| And (operands : list FindOperator).

(** A value of the flat query object: [string | string[]]. *)
Inductive QueryValue : Type :=
| QString (s : string)
| QArray (l : list string).

(** The right-hand side of a where property: a literal, the raw array of a
    query value, a find operator, or a nested object for a relation. *)
Inductive WhereValue : Type :=
| WLit (value : Js.Prim)
| WArr (values : list string)
| WOp (operator : FindOperator)
| WObj (properties : list (string * WhereValue)).

Definition FindOptionsWhere : Type := Js.Obj WhereValue.

(** [FindOptionsWhere<T>[] | FindOptionsWhere<T>]: an array is a
    disjunction of its members. *)
Inductive Where : Type :=
| WhereOne (clause : FindOptionsWhere)
| WhereMany (clauses : list FindOptionsWhere).

(** [select]: the string left behind by a falsy query value, or an array. *)
Inductive Selection : Type :=
| SelString (s : string)
| SelArray (entries : list Js.Prim).

(** [relations]: a string, an array of names, or the object form that
    [Query.getRelations] builds. *)
Inductive RelationsSel : Type :=
| RelString (s : string)
| RelArray (names : list string)
| RelObject (flags : Js.Obj bool).

Record FindManyOptions : Type := {
  take : option Z;
  skip : option Z;
  order : option (Js.Obj string);
  select : option Selection;
  relations_opt : option RelationsSel;
  where_ : option Where
}.

(** The empty options object [{}]. *)
Definition empty_options : FindManyOptions :=
  {| take := None; skip := None; order := None; select := None;
     relations_opt := None; where_ := None |}.

Definition set_where (w : Where) (o : FindManyOptions) : FindManyOptions :=
  {| take := take o; skip := skip o; order := order o; select := select o;
     relations_opt := relations_opt o; where_ := Some w |}.

Definition set_relations (r : RelationsSel) (o : FindManyOptions) : FindManyOptions :=
  {| take := take o; skip := skip o; order := order o; select := select o;
     relations_opt := Some r; where_ := where_ o |}.

Definition set_select (s : Selection) (o : FindManyOptions) : FindManyOptions :=
  {| take := take o; skip := skip o; order := order o; select := Some s;
     relations_opt := relations_opt o; where_ := where_ o |}.

(** ** TypeOrm.ts: the free option helpers *)

Module TypeOrm.

(** The query object as the free functions use it: they call [split] on
    [select] and [relations], so both are strings when present. *)
Record Query : Type := {
  q_select : option string;
  q_relations : option string;
  limit : option Z;
  offset : option Z;
  order_by : option string;
  order_by_type : option string
}.

(** [if (s) s = s.split(',')] followed by [s ?? null] and [omitBy isNil]:
    a falsy (empty) string is left as it is. *)
Definition split_if_truthy (s : option string) : option (list string + string) :=
  match s with
  | None => None
  | Some x => if String.eqb x "" then Some (inr x) else Some (inl (Js.split "," x))
  end.

Definition findOptions (query : Query) (where_ : option Where)
    (default_sort : string) : FindManyOptions :=
  {| take := Some (match limit query with Some n => n | None => 20 end);
     skip := Some (match offset query with Some n => n | None => 0 end);
     order := Some (match order_by query with
                    | Some col =>
                        if String.eqb col "" then [(default_sort, "ASC")]
                        else [(col, match order_by_type query with
                                    | Some t => t
                                    | None => "ASC"
                                    end)]
                    | None => [(default_sort, "ASC")]
                    end);
     select := match split_if_truthy (q_select query) with
               | None => None
               | Some (inl l) => Some (SelArray (map Js.Str l))
               | Some (inr s) => Some (SelString s)
               end;
     relations_opt := match split_if_truthy (q_relations query) with
                      | None => None
                      | Some (inl l) => Some (RelArray l)
                      | Some (inr s) => Some (RelString s)
                      end;
     where_ := where_ |}.

Definition findOneOptions (query : Query) (where_ : option Where) : FindManyOptions :=
  {| take := None; skip := None; order := None;
     select := match split_if_truthy (q_select query) with
               | None => None
               | Some (inl l) => Some (SelArray (map Js.Str l))
               | Some (inr s) => Some (SelString s)
               end;
     relations_opt := match split_if_truthy (q_relations query) with
                      | None => None
                      | Some (inl l) => Some (RelArray l)
                      | Some (inr s) => Some (RelString s)
                      end;
     where_ := where_ |}.

(** [columns.find(column => column.isPrimary)?.propertyName], rejected when
    falsy. *)
Definition getPrimaryKey (repository : Repository) : Res string :=
  match List.find isPrimary (columns (metadata repository)) with
  | Some column =>
      if String.eqb (column_propertyName column) "" then Throw "Primary key not found"
      else Ok (column_propertyName column)
  | None => Throw "Primary key not found"
  end.

Definition getTableName (repository : Repository) : string :=
  tableName (metadata repository).

Definition getColumnNames (repository : Repository) : list string :=
  map column_propertyName (columns (metadata repository)).

(** A column that is not declared can hold [NULL]. *)
Definition isColumnNullable (repository : Repository) (column : string) : bool :=
  match List.find (fun e => String.eqb (column_propertyName e) column)
          (columns (metadata repository)) with
  | Some e => isNullable e
  | None => true
  end.

(** [{ [pk]: MoreThan(0) }] *)
Definition primary_key_positive (pk : string) : Where :=
  WhereOne [(pk, WOp (MoreThan (Js.Num 0)))].

Definition handleEmptyOptions (repository : Repository)
    (options : option FindManyOptions) : Res FindManyOptions :=
  match options with
  | Some o => Ok o
  | None =>
      res_bind (getPrimaryKey repository) (fun pk =>
      Ok {| take := None; skip := None;
            order := Some [("created_at", "DESC")];
            select := None; relations_opt := None;
            where_ := Some (primary_key_positive pk) |})
  end.

Definition handleEmptyWhere (repository : Repository)
    (options : FindManyOptions) : Res FindManyOptions :=
  match where_ options with
  | Some _ => Ok options
  | None =>
      res_bind (getPrimaryKey repository) (fun pk =>
      Ok (set_where (primary_key_positive pk) options))
  end.

Definition handleEmptyRelations (repository : Repository)
    (options : FindManyOptions) : FindManyOptions :=
  match relations_opt options with
  | Some _ => options
  | None => set_relations (RelArray (relations (metadata repository))) options
  end.

(** The callback of the filter: [typeof select === 'string' &&
    validSelectValues.includes(select)]. *)
Definition valid_select (validSelectValues : list string) (entry : Js.Prim) : bool :=
  match entry with
  | Js.Str s => Js.arr_includes s validSelectValues
  | _ => false
  end.

Definition filterOutInvalidSelectValues (repository : Repository)
    (options : FindManyOptions) : Res FindManyOptions :=
  match select options with
  | None => Ok options
  | Some (SelString s) =>
      if String.eqb s "" then Ok options
      else Throw "options.select.filter is not a function"
  | Some (SelArray entries) =>
      let validSelectValues := getColumnNames repository in
      Ok (set_select (SelArray (List.filter (valid_select validSelectValues) entries))
            options)
  end.

Definition findAllOptionsWrapper (repository : Repository)
    (options : option FindManyOptions) : Res FindManyOptions :=
  res_bind (handleEmptyOptions repository options) (fun o1 =>
  res_bind (handleEmptyWhere repository o1) (fun o2 =>
  filterOutInvalidSelectValues repository (handleEmptyRelations repository o2))).

Definition findOneOptionsWrapper (repository : Repository)
    (options : option FindManyOptions) : Res FindManyOptions :=
  res_bind (handleEmptyOptions repository options) (fun o1 =>
  filterOutInvalidSelectValues repository (handleEmptyRelations repository o1)).

End TypeOrm.

(** ** State and exceptions

    Code that awaits the repository runs over a state [S]: a computation
    returns a value or throws, and the state it reached is kept either way
    (a statement that failed half-way may already have written). *)

Definition M (S A : Type) : Type := S -> Res A * S.

Definition ret {S A} (a : A) : M S A := fun s => (Ok a, s).

Definition throw {S A} (message : string) : M S A := fun s => (Throw message, s).

Definition bind {S A B} (c : M S A) (k : A -> M S B) : M S B :=
  fun s =>
    match c s with
    | (Ok a, s') => k a s'
    | (Throw m, s') => (Throw m, s')
    end.

Notation "'let*' x ':=' c 'in' k" := (bind c (fun x => k))
  (at level 10, x pattern, c at level 100, k at level 200).

Definition lift_res {S A} (r : Res A) : M S A := fun s => (r, s).

(** [try { c } catch (e) { handler(e) }]; an [Error]'s message stands for
    the error. *)
Definition try_catch {S A} (c : M S A) (handler : string -> M S A) : M S A :=
  fun s =>
    match c s with
    | (Ok a, s') => (Ok a, s')
    | (Throw m, s') => handler m s'
    end.

(** [for (const x of l) { body(x) }]: a throw leaves the loop. *)
Fixpoint for_of {S A} (l : list A) (body : A -> M S unit) : M S unit :=
  match l with
  | [] => ret tt
  | x :: rest => let* _ := body x in for_of rest body
  end.

(** ** The wrapped ORM

    The statements the helper sends through [repository.query] are kept as
    syntax: each constructor stands for the SQL text of the source with
    the table names filled in. *)

Inductive Sql : Type :=
| DeleteFrom (table : string)
| AlterTableAutoIncrement (table : string) (start : Z)
| DropTableIfExists (table : string)
| CreateTableLike (table like : string)
| InsertIntoSelectAllFrom (table source : string)
| RenameTable (renames : list (string * string)).

Record InsertResult : Type := { identifiers : list Entity }.

(** The repository operations the helper awaits, over a database state
    [DB].  [number_toFixed2] stands for [Number(Number(x).toFixed(2))]:
    the floating-point rounding is left to the host. *)
Class Backend (DB : Type) : Type := {
  repository_query : Repository -> Sql -> M DB (list Entity);
  repository_save : Repository -> Entity -> M DB Entity;
  repository_findOne : Repository -> FindManyOptions -> M DB (option Entity);
  repository_find : Repository -> FindManyOptions -> M DB (list Entity);
  repository_count : Repository -> FindManyOptions -> M DB Z;
  repository_softRemove : Repository -> Entity -> M DB unit;
  repository_remove : Repository -> Entity -> M DB unit;
  insert_orUpdate_execute :
    Repository -> string -> Entity -> list string -> list string -> M DB InsertResult;
  where_select_execute :
    Repository -> option Where -> string -> M DB (list Entity);
  number_toFixed2 : Js.Prim -> Js.Prim
}.

(** ** common.ts *)

Inductive ImportMode : Type := CREATE | UPSERT | DELETE | REPOPULATE.

Record BulkUploadResponse : Type := {
  total : Z;
  processed : Z;
  created : Z;
  updated : Z;
  deleted : Z;
  errored : Z;
  errors : option (list string);
  ids : list Js.Prim
}.

(** ** Query.ts: the filter builder *)

Module Query.

(** Modelled from the spec: [Enums.getKeyName] of the package
    [@juicyllama/utils], which is not part of these sources.  It maps a
    value of an enum back to the name of the member that holds it.  The
    enum object itself ([ComparisonOperator], same package) is a
    parameter of the builder: a table from member name to value. *)
Definition Enums_getKeyName (Enum : Js.Obj string) (value : option string)
    : option string :=
  match value with
  | None => None
  | Some v =>
      match List.find (fun member => String.eqb (snd member) v) Enum with
      | Some member => Some (fst member)
      | None => None
      end
  end.

Definition splitStringByFirstColon (inputString : string) : list string :=
  let indexOfFirstColon := Js.indexOf ":" inputString in
  if indexOfFirstColon =? -1 then [inputString]
  else [Js.slice inputString 0 indexOfFirstColon;
        Js.slice_from inputString (indexOfFirstColon + 1)].

(** [a || b] on optional strings: the empty string is falsy. *)
Definition or_else (a b : option string) : option string :=
  match a with
  | Some s => if String.eqb s "" then b else Some s
  | None => b
  end.

Section FilterBuilder.

Variable ComparisonOperator : Js.Obj string.

(** [case ComparisonOperator.MEMBER:] of a [switch (op)]. *)
Definition case_member (member : string) (op : option string) : bool :=
  match Js.get member ComparisonOperator, op with
  | Some v, Some o => String.eqb v o
  | None, None => true
  | _, _ => false
  end.

Definition mapComparisonOperatorToTypeORMFindOperators
    (op : option string) (value : Js.Prim) : Res FindOperator :=
  if case_member "GT" op then Ok (MoreThan value)
  else if case_member "GTE" op then Ok (MoreThanOrEqual value)
  else if case_member "LT" op then Ok (LessThan value)
  else if case_member "LTE" op then Ok (LessThanOrEqual value)
  else if case_member "EQ" op then Ok (Equal value)
  else if case_member "NE" op then Ok (Not (Equal value))
  else if case_member "IS" op then Ok IsNull
  else if case_member "NNULL" op then Ok (Not IsNull)
  else Throw ("Unsupported operator " ++
              match op with Some o => o | None => "undefined" end).

Definition castArray (value : QueryValue) : list string :=
  match value with
  | QString s => [s]
  | QArray l => l
  end.

(** The callback of the [reduce] over the values of one field.  Every
    element of a [string | string[]] value is a string, so the
    [typeof currentValue !== 'string'] guard never fires. *)
Definition lookup_reducer (memo : list FindOperator) (currentValue : string)
    : Res (list FindOperator) :=
  let parts := splitStringByFirstColon currentValue in
  let operator := nth 0 parts "" in
  let lookupValue :=
    match nth_error parts 1 with
    | Some v => Js.Str v
    | None => Js.Undefined
    end in
  let opKeyName :=
    or_else
      (Enums_getKeyName ComparisonOperator (Some (Js.toUpperCase operator)))
      (Enums_getKeyName ComparisonOperator
         (Js.get (Js.toUpperCase currentValue) ComparisonOperator)) in
  match or_else opKeyName None with
  | Some name =>
      res_bind
        (mapComparisonOperatorToTypeORMFindOperators
           (Js.get name ComparisonOperator) lookupValue)
        (fun found => Ok (memo ++ [found])%list)
  | None => Ok memo
  end.

Fixpoint reduce (values : list string) (memo : list FindOperator)
    : Res (list FindOperator) :=
  match values with
  | [] => Ok memo
  | currentValue :: rest =>
      res_bind (lookup_reducer memo currentValue) (reduce rest)
  end.

Definition where_of_query_value (value : QueryValue) : WhereValue :=
  match value with
  | QString s => WLit (Js.Str s)
  | QArray l => WArr l
  end.

(** [queryValue]: the only operator, the conjunction of several, or the
    value itself when no element carried an operator. *)
Definition queryValue (fieldLookupWhere : list FindOperator) (value : QueryValue)
    : WhereValue :=
  match fieldLookupWhere with
  | [single] => WOp single
  | [] => where_of_query_value value
  | several => WOp (And several)
  end.

(** The nesting loop of [createWhereRelations], by the own properties it
    leaves: one fresh object per key but the last, which receives the
    value.  An assignment under the key [__proto__] goes through the
    setter of [Object.prototype] and creates no own property: the object
    stays empty, and the rest of the path lands on its prototype (or a
    primitive value is dropped). *)
Fixpoint nest (keys : list string) (value : WhereValue) : FindOptionsWhere :=
  match keys with
  | [] => [("undefined", value)]
  | [last] => if String.eqb last "__proto__" then [] else [(last, value)]
  | key :: rest =>
      if String.eqb key "__proto__" then [] else [(key, WObj (nest rest value))]
  end.

Definition createWhereRelations (keyString : string) (value : WhereValue)
    (relations : list string) : FindOptionsWhere :=
  let keys := Js.split "." keyString in
  if negb (Js.arr_includes (nth 0 keys "") relations) then []
  else nest keys value.

(** The guard of the loop over the entries: a column with that property
    name exists, or [relationsProperty.find(r => r === k)] is truthy (the
    relation name it returns is falsy when empty). *)
Definition declared (repository : Repository) (k : string) : bool :=
  existsb (fun column => String.eqb (column_propertyName column) k)
    (columns (metadata repository))
  || match List.find (fun r => String.eqb r k) (relations (metadata repository)) with
     | Some r => negb (String.eqb r "")
     | None => false
     end.

(** The body of [for (const [key, value] of entries)]. *)
Definition whereBase_step (repository : Repository) (whereBase : FindOptionsWhere)
    (entry : string * QueryValue) : Res FindOptionsWhere :=
  let '(key, value) := entry in
  let relationsProperty := relations (metadata repository) in
  let isRelation := Js.includes "." key in
  let k := if isRelation then nth 0 (Js.split "." key) "" else key in
  if declared repository k then
    res_bind (reduce (castArray value) []) (fun fieldLookupWhere =>
    let v := queryValue fieldLookupWhere value in
    if isRelation then
      Ok (Js.spread whereBase (createWhereRelations key v relationsProperty))
    else Ok (Js.spread whereBase [(key, v)]))
  else Ok whereBase.

Fixpoint whereBase_loop (repository : Repository) (entries : list (string * QueryValue))
    (whereBase : FindOptionsWhere) : Res FindOptionsWhere :=
  match entries with
  | [] => Ok whereBase
  | entry :: rest =>
      res_bind (whereBase_step repository whereBase entry)
        (whereBase_loop repository rest)
  end.

(** [v?.length === 1 && v[0] === 'undefined']: on a string, [v[0]] is its
    first character. *)
Definition is_undefined_artifact (v : option QueryValue) : bool :=
  match v with
  | Some (QArray [x]) => String.eqb x "undefined"
  | Some (QString s) =>
      (Nat.eqb (String.length s) 1 && String.eqb (substring 0 1 s) "undefined")%bool
  | _ => false
  end.

(** [!v] on a query value: absent or the empty string. *)
Definition falsy (v : option QueryValue) : bool :=
  match v with
  | None => true
  | Some (QString s) => String.eqb s ""
  | Some (QArray _) => false
  end.

Definition searchValue (search : option QueryValue) : string :=
  match search with
  | Some (QArray l) => Js.join " " l
  | Some (QString s) => s
  | None => ""
  end.

(** The body of [for (const search of options.search_fields)]: the clause
    pushed onto [where]. *)
Definition search_clause (repository : Repository) (whereBase : FindOptionsWhere)
    (value : string) (search : string) : FindOptionsWhere :=
  let like := WOp (Like ("%" ++ value ++ "%")) in
  let whereToMerge :=
    if Js.includes "." search
    then createWhereRelations search like (relations (metadata repository))
    else [(search, like)] in
  Js.spread whereBase whereToMerge.

(** The query object after the two [delete]s of [buildWhere]; the caller's
    object is the one that is changed. *)
Definition query_after_search_cleanup (query : Js.Obj QueryValue) : Js.Obj QueryValue :=
  if is_undefined_artifact (Js.get "search" query) then Js.remove "search" query
  else query.

Definition query_after_buildWhere (query : Js.Obj QueryValue)
    (search_fields : option (list string)) : Js.Obj QueryValue :=
  let query1 := query_after_search_cleanup query in
  if (falsy (Js.get "search" query1) || negb (bool_decide (is_Some search_fields)))%bool
  then query1
  else if is_undefined_artifact (Js.get "relations" query1)
       then Js.remove "relations" query1
       else query1.

(** [buildWhere]; [query] lists the entries of [options.query] in the
    order of [Object.entries].  [account_id] and [account_ids] are not
    read by the function. *)
Definition buildWhere (repository : Repository) (query : option (Js.Obj QueryValue))
    (search_fields : option (list string)) : Res Where :=
  res_bind
    (match query with
     | Some entries => whereBase_loop repository entries []
     | None => Ok []
     end) (fun whereBase =>
  let search :=
    match query with
    | Some q => Js.get "search" (query_after_search_cleanup q)
    | None => None
    end in
  match search_fields with
  | Some fields =>
      if falsy search then Ok (WhereOne whereBase)
      else Ok (WhereMany
                 (map (search_clause repository whereBase (searchValue search)) fields))
  | None => Ok (WhereOne whereBase)
  end).

End FilterBuilder.

(** ** Query.ts: the option normalizer of the class *)

Record ListQuery : Type := {
  q_select : option QueryValue;
  q_relations : option QueryValue;
  limit : option Z;
  offset : option Z;
  order_by : option string;
  order_by_type : option string
}.

(** [if (v) x = typeof v === 'string' ? v.split(',') : v]: [x] stays
    undefined for an absent or empty-string value. *)
Definition split_list (v : option QueryValue) : option (list string) :=
  match v with
  | Some (QString s) => if String.eqb s "" then None else Some (Js.split "," s)
  | Some (QArray l) => Some l
  | None => None
  end.

Definition findOneOptions (query : ListQuery) (where_ : option Where) : FindManyOptions :=
  {| take := None; skip := None; order := None;
     select := option_map (fun l => SelArray (map Js.Str l)) (split_list (q_select query));
     relations_opt := option_map RelArray (split_list (q_relations query));
     where_ := where_ |}.

Definition findOptions (query : ListQuery) (where_ : option Where)
    (fallback_order_column : option string) : FindManyOptions :=
  {| take := Some (match limit query with Some n => n | None => 20 end);
     skip := Some (match offset query with Some n => n | None => 0 end);
     order :=
       Some (match or_else (order_by query) None with
             | Some col =>
                 [(col, match order_by_type query with
                        | Some t => t
                        | None => "ASC"
                        end)]
             | None =>
                 [(match fallback_order_column with
                   | Some c => c
                   | None => "created_at"
                   end, "DESC")]
             end);
     select := option_map (fun l => SelArray (map Js.Str l)) (split_list (q_select query));
     relations_opt := option_map RelArray (split_list (q_relations query));
     where_ := where_ |}.

(** ** Query.ts: metadata helpers *)

Definition getPrimaryKey (repository : Repository) : Res string :=
  match List.find isPrimary (columns (metadata repository)) with
  | Some column =>
      if String.eqb (column_propertyName column) "" then Throw "no primary key was found"
      else Ok (column_propertyName column)
  | None => Throw "no primary key was found"
  end.

Definition getRecordId (repository : Repository) (record : Entity) : Res Js.Prim :=
  res_bind (getPrimaryKey repository) (fun pk => Ok (field record pk)).

Definition getTableName (repository : Repository) : string :=
  tableName (metadata repository).

Definition getRelations (repository : Repository) : Js.Obj bool :=
  fold_left (fun result relation => Js.set relation true result)
    (relations (metadata repository)) [].

(** ** Query.ts: operations on the repository *)

Section Operations.

Context {DB : Type} {backend : Backend DB}.

Definition raw (repository : Repository) (sql : Sql) : M DB (list Entity) :=
  repository_query repository sql.

Definition findOne (repository : Repository) (options : option FindManyOptions)
    : M DB (option Entity) :=
  let* options := lift_res (TypeOrm.findOneOptionsWrapper repository options) in
  repository_findOne repository options.

(** The primary key is looked up first, for the log line. *)
Definition findOneById (repository : Repository) (id : Js.Prim)
    (relations : option (list string)) : M DB (option Entity) :=
  let* pk := lift_res (getPrimaryKey repository) in
  findOne repository
    (Some {| take := None; skip := None; order := None; select := None;
             relations_opt :=
               Some (match relations with
                     | Some (r :: rest) => RelArray (r :: rest)
                     | _ => RelObject (getRelations repository)
                     end);
             where_ := Some (WhereOne [(pk, WLit id)]) |}).

Definition findOneByWhere (repository : Repository) (where_ : Where)
    (options : option FindManyOptions) : M DB (option Entity) :=
  let* options := lift_res (TypeOrm.findOneOptionsWrapper repository options) in
  findOne repository (Some (set_where where_ options)).

Definition findAll (repository : Repository) (options : option FindManyOptions)
    : M DB (list Entity) :=
  let* options := lift_res (TypeOrm.findAllOptionsWrapper repository options) in
  repository_find repository options.

(** [repository.create] builds the entity from the payload without
    touching the database, and [logCreateError] only writes to the log
    before the error is thrown again. *)
Definition create (repository : Repository) (data : Entity) (relations : list string)
    : M DB (option Entity) :=
  try_catch
    (let* result := repository_save repository data in
     match relations with
     | [] => ret (Some result)
     | _ :: _ =>
         let* id := lift_res (getRecordId repository result) in
         findOneById repository id (Some relations)
     end)
    (fun e => throw e).

Definition upsert (repository : Repository) (data : Entity) (dedup_field : string)
    : M DB InsertResult :=
  let fields := List.filter (fun f => negb (String.eqb f dedup_field)) (Js.keys data) in
  insert_orUpdate_execute repository (tableName (metadata repository)) data
    fields [dedup_field].

Definition update (repository : Repository) (data : Entity) (relations : list string)
    : M DB Entity :=
  let* recordId := lift_res (getRecordId repository data) in
  if negb (Js.truthy recordId) then
    let* pk := lift_res (getPrimaryKey repository) in
    throw ("Primary key " ++ pk ++ " missing from update to "
           ++ tableName (metadata repository))
  else
    try_catch
      (let* _ := repository_save repository data in
       let* updatedRecord := findOneById repository recordId (Some relations) in
       match updatedRecord with
       | Some record => ret record
       | None =>
           throw ("Updated record " ++ tableName (metadata repository)
                  ++ " with id " ++ Js.to_string recordId ++ " not found")
       end)
      (fun e => throw e).

Definition count (repository : Repository) (options : option FindManyOptions) : M DB Z :=
  let* options := lift_res (TypeOrm.findAllOptionsWrapper repository options) in
  repository_count repository options.

(** [result[0].sum] of the aggregate row. *)
Definition first_row_field (name : string) (result : list Entity) : M DB Js.Prim :=
  match result with
  | row :: _ => ret (number_toFixed2 (field row name))
  | [] => throw "Cannot read properties of undefined"
  end.

Definition sum (repository : Repository) (metric : string)
    (options : option FindManyOptions) : M DB Js.Prim :=
  let* options := lift_res (TypeOrm.findAllOptionsWrapper repository options) in
  let* result :=
    where_select_execute repository (where_ options) ("SUM(" ++ metric ++ ") as sum") in
  first_row_field "sum" result.

Definition avg (repository : Repository) (metric : string)
    (options : option FindManyOptions) : M DB Js.Prim :=
  let* options := lift_res (TypeOrm.findAllOptionsWrapper repository options) in
  let* result :=
    where_select_execute repository (where_ options)
      ("AVG(" ++ metric ++ ") as average") in
  first_row_field "average" result.

Definition remove (repository : Repository) (record : Entity) : M DB Entity :=
  let* _ := repository_softRemove repository record in
  ret record.

Definition purge (repository : Repository) (record : Entity) : M DB unit :=
  repository_remove repository record.

Definition truncate (repository : Repository) : M DB unit :=
  let* _ := raw repository (DeleteFrom (tableName (metadata repository))) in
  let* _ := raw repository (AlterTableAutoIncrement (tableName (metadata repository)) 1) in
  ret tt.

Definition dropTable (repository : Repository) (table_name : string) : M DB unit :=
  let* _ := raw repository (DropTableIfExists table_name) in
  ret tt.

(** [table_name ?? repository.metadata.tableName + '_COPY'] *)
Definition copy_name (repository : Repository) (table_name : option string) : string :=
  match table_name with
  | Some name => name
  | None => tableName (metadata repository) ++ "_COPY"
  end.

Definition copyTable (repository : Repository) (table_name : option string) : M DB unit :=
  let* _ := dropTable repository (copy_name repository table_name) in
  let* _ := raw repository
              (CreateTableLike (copy_name repository table_name)
                 (tableName (metadata repository))) in
  let* _ := raw repository
              (InsertIntoSelectAllFrom (copy_name repository table_name)
                 (tableName (metadata repository))) in
  ret tt.

Definition restoreTable (repository : Repository) (table_name : option string) : M DB unit :=
  let* _ := raw repository
              (RenameTable
                 [(tableName (metadata repository),
                   tableName (metadata repository) ++ "_DELETE");
                  (copy_name repository table_name,
                   tableName (metadata repository))]) in
  dropTable repository (tableName (metadata repository) ++ "_DELETE").

(** ** Query.ts: bulk import

    The loops mutate the [result] object while they await the repository,
    so their bodies run over the pair of the accumulator and the
    database. *)

Definition lift_db {A} (c : M DB A) : M (BulkUploadResponse * DB) A :=
  fun s =>
    match c (snd s) with
    | (a, db') => (a, (fst s, db'))
    end.

Definition modify_result (f : BulkUploadResponse -> BulkUploadResponse)
    : M (BulkUploadResponse * DB) unit :=
  fun s => (Ok tt, (f (fst s), snd s)).

Definition push_id (id : Js.Prim) (r : BulkUploadResponse) : BulkUploadResponse :=
  {| total := total r; processed := processed r; created := created r;
     updated := updated r; deleted := deleted r; errored := errored r;
     errors := errors r; ids := (ids r ++ [id])%list |}.

Definition incr_created (r : BulkUploadResponse) : BulkUploadResponse :=
  {| total := total r; processed := processed r; created := created r + 1;
     updated := updated r; deleted := deleted r; errored := errored r;
     errors := errors r; ids := ids r |}.

Definition incr_updated (r : BulkUploadResponse) : BulkUploadResponse :=
  {| total := total r; processed := processed r; created := created r;
     updated := updated r + 1; deleted := deleted r; errored := errored r;
     errors := errors r; ids := ids r |}.

Definition incr_deleted (r : BulkUploadResponse) : BulkUploadResponse :=
  {| total := total r; processed := processed r; created := created r;
     updated := updated r; deleted := deleted r + 1; errored := errored r;
     errors := errors r; ids := ids r |}.

Definition incr_processed (r : BulkUploadResponse) : BulkUploadResponse :=
  {| total := total r; processed := processed r + 1; created := created r;
     updated := updated r; deleted := deleted r; errored := errored r;
     errors := errors r; ids := ids r |}.

(** The three statements of every [catch] block: [result.errored++],
    [result.errors ??= []], [result.errors.push(message)]. *)
Definition record_error (message : string) (r : BulkUploadResponse) : BulkUploadResponse :=
  {| total := total r; processed := processed r; created := created r;
     updated := updated r; deleted := deleted r; errored := errored r + 1;
     errors := Some (match errors r with
                     | Some l => l ++ [message]
                     | None => [message]
                     end)%list;
     ids := ids r |}.

(** One turn of a bulk loop: the guarded body, its [catch] block, then
    [result.processed++]. *)
Definition bulk_row (body : M (BulkUploadResponse * DB) unit)
    : M (BulkUploadResponse * DB) unit :=
  let* _ := try_catch body (fun e => modify_result (record_error e)) in
  modify_result incr_processed.

(** Runs a loop over a fresh accumulator and returns the accumulator. *)
Definition with_result (init : BulkUploadResponse)
    (loop : M (BulkUploadResponse * DB) unit) : M DB BulkUploadResponse :=
  fun db =>
    match loop (init, db) with
    | (Ok _, (result, db')) => (Ok result, db')
    | (Throw e, (_, db')) => (Throw e, db')
    end.

Definition initial_result (data : list Entity) (errors : option (list string))
    : BulkUploadResponse :=
  {| total := Z.of_nat (List.length data); processed := 0; created := 0;
     updated := 0; deleted := 0; errored := 0; errors := errors; ids := [] |}.

(** The guarded statements of [createBulkRecords].  The primary key is
    evaluated before the property of the entity is read. *)
Definition create_row (repository : Repository) (record : Entity)
    : M (BulkUploadResponse * DB) unit :=
  let* entity := lift_db (create repository record []) in
  let* pk := lift_res (getPrimaryKey repository) in
  match entity with
  | Some e =>
      let* _ := modify_result (push_id (field e pk)) in
      modify_result incr_created
  | None => throw "Cannot read properties of null"
  end.

Definition createBulkRecords (repository : Repository) (data : list Entity)
    : M DB BulkUploadResponse :=
  with_result (initial_result data (Some []))
    (for_of data (fun record => bulk_row (create_row repository record))).

(** [{ where: { [dedup_field]: record[dedup_field] } }] *)
Definition dedup_options (record : Entity) (dedup_field : string) : FindManyOptions :=
  set_where (WhereOne [(dedup_field, WLit (field record dedup_field))]) empty_options.

(** The guarded statements of [upsertBulkRecords]: the counter is bumped
    before the identifier is read. *)
Definition upsert_row (repository : Repository) (dedup_field : string) (record : Entity)
    : M (BulkUploadResponse * DB) unit :=
  let* r := lift_db (findOne repository (Some (dedup_options record dedup_field))) in
  let* res := lift_db (upsert repository record dedup_field) in
  let* _ := modify_result (match r with
                           | Some _ => incr_updated
                           | None => incr_created
                           end) in
  let* pk := lift_res (getPrimaryKey repository) in
  match identifiers res with
  | first :: _ => modify_result (push_id (field first pk))
  | [] => throw "Cannot read properties of undefined"
  end.

Definition upsertBulkRecords (repository : Repository) (data : list Entity)
    (dedup_field : string) : M DB BulkUploadResponse :=
  with_result (initial_result data (Some []))
    (for_of data (fun record => bulk_row (upsert_row repository dedup_field record))).

(** The guarded statements of [deleteBulkRecords]. *)
Definition delete_row (repository : Repository) (dedup_field : string) (record : Entity)
    : M (BulkUploadResponse * DB) unit :=
  let* r := lift_db (findOne repository (Some (dedup_options record dedup_field))) in
  match r with
  | Some found =>
      let* _ := lift_db (purge repository found) in
      modify_result incr_deleted
  | None => ret tt
  end.

(** The first loop of the source only fills a local array that is never
    read; the accumulator starts without an [errors] field. *)
Definition deleteBulkRecords (repository : Repository) (data : list Entity)
    (dedup_field : string) : M DB BulkUploadResponse :=
  with_result (initial_result data None)
    (for_of data (fun record => bulk_row (delete_row repository dedup_field record))).

(** [!dedup_field] *)
Definition missing (dedup_field : option string) : bool :=
  match dedup_field with
  | Some f => String.eqb f ""
  | None => true
  end.

(** The [REPOPULATE] arm: [result] is assigned inside the [try], before
    the copy is dropped, so it survives a failure of the drop; the [catch]
    block restores the table whichever of the two statements threw. *)
Definition repopulate (repository : Repository) (data : list Entity)
    : M DB (option BulkUploadResponse) :=
  let* _ := copyTable repository None in
  let* _ := truncate repository in
  fun db =>
    match createBulkRecords repository data db with
    | (Ok result, db1) =>
        (let* _ := try_catch
                     (dropTable repository (tableName (metadata repository) ++ "_COPY"))
                     (fun _ => restoreTable repository None) in
         ret (Some result)) db1
    | (Throw _, db1) =>
        (let* _ := restoreTable repository None in ret None) db1
    end.

(** [bulk]; the [default] arm of the switch is unreachable for a value
    of the [ImportMode] enum. *)
Definition bulk (repository : Repository) (data : list Entity)
    (import_mode : ImportMode) (dedup_field : option string) : M DB BulkUploadResponse :=
  let* result :=
    match import_mode with
    | CREATE =>
        let* r := createBulkRecords repository data in ret (Some r)
    | UPSERT =>
        match dedup_field with
        | Some f =>
            if missing dedup_field then throw "Dedup field required for update"
            else let* r := upsertBulkRecords repository data f in ret (Some r)
        | None => throw "Dedup field required for update"
        end
    | DELETE =>
        match dedup_field with
        | Some f =>
            if missing dedup_field then throw "Dedup field required for update"
            else let* r := deleteBulkRecords repository data f in ret (Some r)
        | None => throw "Dedup field required for update"
        end
    | REPOPULATE => repopulate repository data
    end in
  match result with
  | Some r => ret r
  | None => throw "Failed to upsert"
  end.

End Operations.

End Query.

(** ** A reference backend

    An in-memory database, used to run the helper on concrete inputs:
    tables are named lists of rows, a row that leaves a mandatory column
    undefined is rejected, and a statement on a missing table fails. *)

Module MemoryDb.

Definition prim_eqb (a b : Js.Prim) : bool :=
  match a, b with
  | Js.Undefined, Js.Undefined => true
  | Js.Str x, Js.Str y => String.eqb x y
  | Js.Num x, Js.Num y => x =? y
  | _, _ => false
  end.

Definition missing_table {A} (table : string) : M (gmap string (list Entity)) A :=
  throw ("Table '" ++ table ++ "' doesn't exist").

(** One [a TO b] of a [RENAME TABLE]. *)
Definition rename_one (db : gmap string (list Entity)) (r : string * string)
    : option (gmap string (list Entity)) :=
  match db !! fst r, db !! snd r with
  | Some rows, None => Some (<[snd r := rows]> (delete (fst r) db))
  | _, _ => None
  end.

Fixpoint rename_all (renames : list (string * string)) (db : gmap string (list Entity))
    : option (gmap string (list Entity)) :=
  match renames with
  | [] => Some db
  | r :: rest =>
      match rename_one db r with
      | Some db' => rename_all rest db'
      | None => None
      end
  end.

Definition query (repository : Repository) (sql : Sql)
    : M (gmap string (list Entity)) (list Entity) :=
  fun db =>
    match sql with
    | DeleteFrom table =>
        match db !! table with
        | Some _ => (Ok [], <[table := []]> db)
        | None => missing_table table db
        end
    | AlterTableAutoIncrement table _ =>
        match db !! table with
        | Some _ => (Ok [], db)
        | None => missing_table table db
        end
    | DropTableIfExists table => (Ok [], delete table db)
    | CreateTableLike table like =>
        match db !! like, db !! table with
        | Some _, None => (Ok [], <[table := []]> db)
        | Some _, Some _ => (Throw ("Table '" ++ table ++ "' already exists"), db)
        | None, _ => missing_table like db
        end
    | InsertIntoSelectAllFrom table source =>
        match db !! table, db !! source with
        | Some rows, Some more => (Ok [], <[table := (rows ++ more)%list]> db)
        | None, _ => missing_table table db
        | _, None => missing_table source db
        end
    | RenameTable renames =>
        match rename_all renames db with
        | Some db' => (Ok [], db')
        | None => (Throw "Error on rename", db)
        end
    end.

Definition primary_key (repository : Repository) : string :=
  match List.find isPrimary (columns (metadata repository)) with
  | Some column => column_propertyName column
  | None => ""
  end.

Definition same_key (key : string) (a b : Entity) : bool :=
  prim_eqb (field a key) (field b key).

(** The first column that may not be [NULL] and that the record leaves
    undefined; the primary key is generated when it is not given. *)
Definition missing_field (repository : Repository) (record : Entity) : option string :=
  match List.find
          (fun c => negb (isNullable c) && negb (isPrimary c)
                    && prim_eqb (field record (column_propertyName c)) Js.Undefined)%bool
          (columns (metadata repository)) with
  | Some c => Some (column_propertyName c)
  | None => None
  end.

(** [save]: rejects a record with a missing field, replaces the row with
    the same primary key or appends a new one. *)
Definition save (repository : Repository) (record : Entity)
    : M (gmap string (list Entity)) Entity :=
  fun db =>
    let table := tableName (metadata repository) in
    match db !! table with
    | Some rows =>
        match missing_field repository record with
        | Some name =>
            (Throw ("Field '" ++ name ++ "' doesn't have a default value"), db)
        | None =>
            if existsb (same_key (primary_key repository) record) rows
            then (Ok record,
                  <[table := map (fun row =>
                                    if same_key (primary_key repository) record row
                                    then record else row) rows]> db)
            else (Ok record, <[table := (rows ++ [record])%list]> db)
        end
    | None => missing_table table db
    end.

(** Rows are matched against the literal properties of a single where
    object; any other where matches nothing. *)
Definition row_matches (clause : FindOptionsWhere) (row : Entity) : bool :=
  forallb (fun property =>
             match snd property with
             | WLit v => prim_eqb (field row (fst property)) v
             | _ => false
             end) clause.

Definition matching (options : FindManyOptions) (rows : list Entity) : list Entity :=
  match where_ options with
  | Some (WhereOne clause) => List.filter (row_matches clause) rows
  | Some (WhereMany _) => []
  | None => rows
  end.

Definition find (repository : Repository) (options : FindManyOptions)
    : M (gmap string (list Entity)) (list Entity) :=
  fun db =>
    match db !! tableName (metadata repository) with
    | Some rows => (Ok (matching options rows), db)
    | None => missing_table (tableName (metadata repository)) db
    end.

Definition findOne (repository : Repository) (options : FindManyOptions)
    : M (gmap string (list Entity)) (option Entity) :=
  let* rows := find repository options in ret (head rows).

Definition count (repository : Repository) (options : FindManyOptions)
    : M (gmap string (list Entity)) Z :=
  let* rows := find repository options in ret (Z.of_nat (List.length rows)).

Definition remove (repository : Repository) (record : Entity)
    : M (gmap string (list Entity)) unit :=
  fun db =>
    let table := tableName (metadata repository) in
    match db !! table with
    | Some rows =>
        (Ok tt,
         <[table := List.filter
                      (fun row => negb (same_key (primary_key repository) record row))
                      rows]> db)
    | None => missing_table table db
    end.

Definition softRemove (repository : Repository) (record : Entity)
    : M (gmap string (list Entity)) unit :=
  ret tt.

(** [INSERT ... ON DUPLICATE KEY UPDATE] on the first conflict column. *)
Definition insert_orUpdate (repository : Repository) (table : string) (values : Entity)
    (fields conflict : list string) : M (gmap string (list Entity)) InsertResult :=
  fun db =>
    match db !! table, missing_field repository values with
    | Some rows, None =>
        let key := List.hd "" conflict in
        let kept := List.filter (fun row => negb (same_key key values row)) rows in
        (Ok {| identifiers := [values] |}, <[table := (kept ++ [values])%list]> db)
    | Some _, Some name =>
        (Throw ("Field '" ++ name ++ "' doesn't have a default value"), db)
    | None, _ => missing_table table db
    end.

Definition where_select (repository : Repository) (w : option Where) (selection : string)
    : M (gmap string (list Entity)) (list Entity) :=
  ret [].

#[export] Instance backend : Backend (gmap string (list Entity)) := {|
  repository_query := query;
  repository_save := save;
  repository_findOne := findOne;
  repository_find := find;
  repository_count := count;
  repository_softRemove := softRemove;
  repository_remove := remove;
  insert_orUpdate_execute := insert_orUpdate;
  where_select_execute := where_select;
  number_toFixed2 := fun x => x
|}.

End MemoryDb.

(** ** Sample data *)

(** Modelled from the spec: a [ComparisonOperator] enum
    ([@juicyllama/utils], not part of these sources) with the members that
    the switch of [mapComparisonOperatorToTypeORMFindOperators] names.
    The values follow the prefixes of the spec's examples ([gt:5]); the
    builder takes the enum as a parameter, and this table only serves to
    run it. *)
Definition ComparisonOperator : Js.Obj string :=
  [("GT", "GT"); ("GTE", "GTE"); ("LT", "LT"); ("LTE", "LTE");
   ("EQ", "EQ"); ("NE", "NE"); ("IS", "IS"); ("NNULL", "!NULL")].

Definition column (name : string) (nullable : bool) : ColumnMetadata :=
  {| column_propertyName := name; isPrimary := false; isNullable := nullable |}.

(** A table of books with an [author] relation; every book needs a
    title. *)
Definition books : Repository :=
  {| metadata :=
       {| tableName := "books";
          columns := [ {| column_propertyName := "id"; isPrimary := true;
                          isNullable := false |};
                       column "title" false; column "price" true;
                       column "created_at" true ];
          relations := ["author"] |} |}.


Definition book (id : Z) (title : string) : Entity :=
  [("id", Js.Num id); ("title", Js.Str title)].

(** A book without a title: the backend rejects it. *)
Definition untitled (id : Z) : Entity := [("id", Js.Num id)].

Definition library : gmap string (list Entity) :=
  {[ "books" := [book 7 "Emma"] ]}.

(** ** Notions used in the statements *)

(** The options that [handleEmptyOptions] and [handleEmptyRelations]
    leave when the caller passed none. *)
Definition defaulted_options (repository : Repository) (pk : string) : FindManyOptions :=
  {| take := None; skip := None;
     order := Some [("created_at", "DESC")];
     select := None;
     relations_opt := Some (RelArray (relations (metadata repository)));
     where_ := Some (WhereOne [(pk, WOp (MoreThan (Js.Num 0)))]) |}.

(** An options object that only selects columns. *)
Definition only_select (entries : list string) : FindManyOptions :=
  set_select (SelArray (map Js.Str entries)) empty_options.

(** [result.errors] read as a list: no field, no message. *)
Definition errors_list (r : BulkUploadResponse) : list string :=
  match errors r with
  | Some l => l
  | None => []
  end.

(** The messages of the outcomes that are throws, in order. *)
Fixpoint thrown (outcomes : list (Res unit)) : list string :=
  match outcomes with
  | [] => []
  | Ok _ :: rest => thrown rest
  | Throw message :: rest => message :: thrown rest
  end.

Section RowOutcomes.

Context {DB : Type} {backend : Backend DB}.

(** What the guarded statements of each row did, observed along the run
    of a bulk loop: row [i] starts in the state that the turns for the
    rows before it left. *)
Fixpoint row_outcomes (body : Entity -> M (BulkUploadResponse * DB) unit)
    (data : list Entity) (s : BulkUploadResponse * DB) : list (Res unit) :=
  match data with
  | [] => []
  | record :: rest =>
      fst (body record s)
      :: row_outcomes body rest (snd (Query.bulk_row (body record) s))
  end.

(** The guarded statements of a mode, and the accumulator it starts
    from. *)
Definition guarded_row (repository : Repository) (import_mode : ImportMode)
    (dedup_field : option string) : Entity -> M (BulkUploadResponse * DB) unit :=
  let f := match dedup_field with Some f => f | None => "" end in
  match import_mode with
  | CREATE | REPOPULATE => Query.create_row repository
  | UPSERT => Query.upsert_row repository f
  | DELETE => Query.delete_row repository f
  end.

Definition bulk_outcomes (repository : Repository) (data : list Entity)
    (import_mode : ImportMode) (dedup_field : option string) (db : DB)
    : list (Res unit) :=
  row_outcomes (guarded_row repository import_mode dedup_field) data
    (Query.initial_result data
       (match import_mode with DELETE => None | _ => Some [] end), db).

(** A computation that leaves the bookkeeping of the accumulator alone:
    total, processed, errored and errors. *)
Definition keeps_bookkeeping {A} (c : M (BulkUploadResponse * DB) A) : Prop :=
  forall s,
    total (fst (snd (c s))) = total (fst s)
    /\ processed (fst (snd (c s))) = processed (fst s)
    /\ errored (fst (snd (c s))) = errored (fst s)
    /\ errors (fst (snd (c s))) = errors (fst s).

End RowOutcomes.

(** The property of the where object that an entry of the query writes:
    the text before the first dot of its key. *)
Definition top_key (key : string) : string := nth 0 (Js.split "." key) "".



(** ** Further functions of the package *)

(** The value that a where clause holds at the end of a path of
    properties. *)
Fixpoint path_get (keys : list string) (v : WhereValue) : option WhereValue :=
  match keys with
  | [] => Some v
  | key :: rest =>
      match v with
      | WObj properties =>
          match Js.get key properties with
          | Some inner => path_get rest inner
          | None => None
          end
      | _ => None
      end
  end.

(** A path none of whose segments is [__proto__], the one name whose
    assignment creates no property. *)
Definition plain_path (keys : list string) : bool :=
  forallb (fun key => negb (String.eqb key "__proto__")) keys.

(** The segments of a path that come before its first [__proto__]
    segment. *)
Fixpoint own_path (keys : list string) : list string :=
  match keys with
  | [] => []
  | key :: rest =>
      if String.eqb key "__proto__" then [] else key :: own_path rest
  end.

(** The accumulator of a bulk pass over no rows. *)
Definition empty_result (errors : option (list string)) : BulkUploadResponse :=
  {| total := 0; processed := 0; created := 0; updated := 0; deleted := 0;
     errored := 0; errors := errors; ids := [] |}.

(** The options of a lookup by primary key, as [findOneById] builds
    them. *)
Definition by_id_options (repository : Repository) (pk : string) (id : Js.Prim)
    (relations : option (list string)) : FindManyOptions :=
  {| take := None; skip := None; order := None; select := None;
     relations_opt :=
       Some (match relations with
             | Some (r :: rest) => RelArray (r :: rest)
             | _ => RelObject (Query.getRelations repository)
             end);
     where_ := Some (WhereOne [(pk, WLit id)]) |}.

(** *** TypeOrm.ts: unique key fields

    [getUniqueKeyFields] reads two more fields of the metadata: the
    indices, each with the map from its column names to their ordering
    (absent when the ORM has not built it), and the unique constraints,
    each with its given column names when they were given as an array. *)

Record IndexMetadata : Type := {
  columnNamesWithOrderingMap : option (Js.Obj Z)
}.

Record UniqueMetadata : Type := {
  givenColumnNames : option (list string)
}.

(** [Array.isArray(e.givenColumnNames) && e.givenColumnNames[0]]: [None]
    stands for the [false] and [undefined] that [compact] drops. *)
Definition first_given (e : UniqueMetadata) : option string :=
  match givenColumnNames e with
  | Some (c :: _) => Some c
  | _ => None
  end.

(** lodash [compact] on such values: the empty string is falsy too. *)
Fixpoint compact (l : list (option string)) : list string :=
  match l with
  | [] => []
  | Some s :: rest => if String.eqb s "" then compact rest else s :: compact rest
  | None :: rest => compact rest
  end.

Definition getUniqueKeyFields (indices : list IndexMetadata)
    (uniques : list UniqueMetadata) : list string :=
  let from_index :=
    match indices with
    | first :: _ =>
        match columnNamesWithOrderingMap first with
        | Some map => Js.keys map
        | None => []
        end
    | [] => []
    end in
  match from_index with
  | _ :: _ => from_index
  | [] => compact (map first_given uniques)
  end.

(** *** naming.strategy.ts *)

Module CustomNamingStrategy.

Record Table : Type := { name : string }.

(** [typeof tableOrName === 'string' ? tableOrName : tableOrName.name] *)
Definition table_name (tableOrName : string + Table) : string :=
  match tableOrName with
  | inl s => s
  | inr table => name table
  end.

(** [columns.reduce((name, column) => `${name}_${column}`)]: without an
    initial value the first column starts the fold, and an empty array is
    a [TypeError]. *)
Definition reduce_columns (columns : list string) : Res string :=
  match columns with
  | [] => Throw "Reduce of empty array with no initial value"
  | first :: rest =>
      Ok (fold_left (fun name column => name ++ "_" ++ column) rest first)
  end.

Definition build (tableOrName : string + Table) (columns : list string) : Res string :=
  res_bind (reduce_columns columns) (fun name =>
  Ok (table_name tableOrName ++ "_" ++ name)).

Definition foreignKeyName (tableOrName : string + Table) (columns : list string)
    : Res string :=
  res_bind (build tableOrName columns) (fun built => Ok ("fk_" ++ built)).

Definition primaryKeyName (tableOrName : string + Table) (columns : list string)
    : Res string :=
  res_bind (build tableOrName columns) (fun built => Ok ("pk_" ++ built)).

Definition indexName (tableOrName : string + Table) (columns : list string)
    : Res string :=
  res_bind (build tableOrName columns) (fun built => Ok ("idx_" ++ built)).

Definition uniqueConstraintName (tableOrName : string + Table) (columns : list string)
    : Res string :=
  res_bind (build tableOrName columns) (fun built => Ok ("uq_" ++ built)).

Definition defaultConstraintName (tableOrName : string + Table) (columnName : string)
    : string :=
  "df_" ++ table_name tableOrName ++ "_" ++ columnName.

End CustomNamingStrategy.

(** *** config.ts

    An absolute directory is the list of its segments, innermost first:
    [dirname] drops the innermost segment and leaves the root, the empty
    list, as it is.  The file system is the predicate [existsSync]. *)

Module Config.

Definition dirname (path : list string) : list string := tl path.

Definition join (path : list string) (file : string) : list string := file :: path.

(** The path as text, for the globs of the configuration. *)
Definition render (path : list string) : string :=
  fold_left (fun text segment => text ++ "/" ++ segment) (rev path) "".

Section FileSystem.

Variable existsSync : list string -> bool.

(** The test of the loop body: both marker files are in the directory. *)
Definition has_markers (currentPath : list string) : bool :=
  existsSync (join currentPath "package.json")
  && existsSync (join currentPath "turbo.json").

(** [while (currentPath !== dirname(currentPath))]: the loop ends at the
    root, which is the only directory equal to its [dirname]. *)
Fixpoint findProjectRoot (startPath : list string) : Res (list string) :=
  match startPath with
  | [] => Throw "Could not find project root"
  | _ :: parent =>
      if has_markers startPath then Ok startPath else findProjectRoot parent
  end.

Record TypeOrmModuleOptions : Type := {
  type_ : string;
  url : string;
  autoLoadEntities : bool;
  entities : list string;
  migrationsRun : bool;
  migrations : list string;
  synchronize : bool;
  poolSize : Z;
  connectTimeout : Z;
  logging : option (list string)
}.

(** [buildTypeOrmConfig]; the process supplies [DATABASE_URL], whether
    the file runs as TypeScript, its directory and [Env.IsProd()].  The
    naming strategy object of the result is left out. *)
Definition buildTypeOrmConfig (DATABASE_URL : option string) (filename_is_ts : bool)
    (dirname_ : list string) (IsProd : bool)
    (databaseUrl : option string) (useTs : option bool) : Res TypeOrmModuleOptions :=
  let url := match databaseUrl with Some u => Some u | None => DATABASE_URL end in
  match url with
  | None => Throw "DATABASE_URL is not defined"
  | Some u =>
      if String.eqb u "" then Throw "DATABASE_URL is not defined"
      else
        let useTs := match useTs with Some b => b | None => filename_is_ts end in
        let fileExt := if useTs then "ts" else "js" in
        let buildDir := if useTs then "src" else "dist" in
        res_bind (findProjectRoot dirname_) (fun projectRoot =>
        Ok {| type_ := "mysql";
              url := u;
              autoLoadEntities := true;
              entities := [render projectRoot ++ "/packages/data/" ++ buildDir
                           ++ "/**/*.entity." ++ fileExt];
              migrationsRun := false;
              migrations := [render projectRoot ++ "/packages/data/" ++ buildDir
                             ++ "/migrations/*." ++ fileExt];
              synchronize := false;
              poolSize := 5;
              connectTimeout := 60000;
              logging := if IsProd then Some ["error"; "warn"] else None |})
  end.

End FileSystem.

End Config.

(** ** A recording backend

    A second backend to run the helper on: it keeps the log of the
    statements it was sent, stores nothing, and fails the statements that
    a script picks out from the log so far. *)

Module ScriptedDb.

Section Script.

Variable fails : list Sql -> Sql -> bool.

Definition query (repository : Repository) (sql : Sql) : M (list Sql) (list Entity) :=
  fun log =>
    if fails log sql then (Throw "statement failed", log)
    else (Ok [], (log ++ [sql])%list).

#[export] Instance backend : Backend (list Sql) := {|
  repository_query := query;
  repository_save := fun _ record => ret record;
  repository_findOne := fun _ _ => ret None;
  repository_find := fun _ _ => ret [];
  repository_count := fun _ _ => ret 0;
  repository_softRemove := fun _ _ => ret tt;
  repository_remove := fun _ _ => ret tt;
  insert_orUpdate_execute := fun _ _ values _ _ => ret {| identifiers := [values] |};
  where_select_execute := fun _ _ _ => ret [];
  number_toFixed2 := fun x => x
|}.

End Script.

(** The script in which the copy can no longer be dropped once the table
    has been emptied. *)
Definition drop_fails_after_delete (log : list Sql) (sql : Sql) : bool :=
  match sql with
  | DropTableIfExists table =>
      String.eqb table "books_COPY"
      && existsb (fun sent => match sent with DeleteFrom _ => true | _ => false end) log
  | _ => false
  end.

End ScriptedDb.

(** ** What a bulk deletion does, row by row *)

(** What became of a row of a bulk deletion. *)
Inductive DeleteOutcome : Type :=
| NotFound
| Purged
| Failed (message : string).

Definition is_purged (outcome : DeleteOutcome) : bool :=
  match outcome with
  | Purged => true
  | _ => false
  end.

(** The messages of the rows that failed, in order. *)
Definition failures (outcomes : list DeleteOutcome) : list string :=
  flat_map (fun outcome => match outcome with
                           | Failed message => [message]
                           | _ => []
                           end) outcomes.

Section DeleteObservation.

Context {DB : Type} {backend : Backend DB}.

(** The row is looked up by its dedup field and the row found, if any,
    is purged. *)
Definition delete_outcome (repository : Repository) (dedup_field : string)
    (record : Entity) (db : DB) : DeleteOutcome * DB :=
  match Query.findOne repository (Some (Query.dedup_options record dedup_field)) db with
  | (Throw message, db1) => (Failed message, db1)
  | (Ok None, db1) => (NotFound, db1)
  | (Ok (Some found), db1) =>
      match Query.purge repository found db1 with
      | (Throw message, db2) => (Failed message, db2)
      | (Ok _, db2) => (Purged, db2)
      end
  end.

(** The rows in order, each on the database that the rows before it
    left. *)
Fixpoint delete_outcomes (repository : Repository) (dedup_field : string)
    (data : list Entity) (db : DB) : list DeleteOutcome * DB :=
  match data with
  | [] => ([], db)
  | record :: rest =>
      let first := delete_outcome repository dedup_field record db in
      let others := delete_outcomes repository dedup_field rest (snd first) in
      (fst first :: fst others, snd others)
  end.

End DeleteObservation.

(** The table of books with no column flagged primary. *)
Definition books_keyless : Repository :=
  {| metadata :=
       {| tableName := "books";
          columns := [column "id" false; column "title" false];
          relations := [] |} |}.

(** * Properties *)

(** ** The option normalizers *)

(** C4: with no limit, no offset and no order_by, the method
    [Query.findOptions] returns take 20, skip 0 and the fallback column in
    descending order; the free function [findOptions] of TypeOrm.ts returns
    take 20 and skip 0 as well, but orders the fallback column ascending. *)
Theorem findOptions_fallback_order :
  forall (sel rel : option QueryValue) (sel' rel' type : option string)
         (w : option Where) (fallback : string),
    let method :=
      Query.findOptions
        {| Query.q_select := sel; Query.q_relations := rel;
           Query.limit := None; Query.offset := None;
           Query.order_by := None; Query.order_by_type := type |}
        w (Some fallback) in
    let free :=
      TypeOrm.findOptions
        {| TypeOrm.q_select := sel'; TypeOrm.q_relations := rel';
           TypeOrm.limit := None; TypeOrm.offset := None;
           TypeOrm.order_by := None; TypeOrm.order_by_type := type |}
        w fallback in
    (take method = Some 20 /\ skip method = Some 0
     /\ order method = Some [(fallback, "DESC")])
    /\ (take free = Some 20 /\ skip free = Some 0
        /\ order free = Some [(fallback, "ASC")]).
Proof.
  intros. subst method free. cbn. repeat split.
Qed.

Lemma valid_select_spec (names : list string) (e : Js.Prim) :
  TypeOrm.valid_select names e = true <-> exists s, e = Js.Str s /\ In s names.
Proof.
  destruct e as [|s|n]; cbn.
  - split; [discriminate | intros (s & H & _); discriminate].
  - unfold Js.arr_includes. rewrite existsb_exists. split.
    + intros (x & Hin & Heq). apply String.eqb_eq in Heq. subst x. eauto.
    + intros (x & Heq & Hin). injection Heq as ->. exists x. split; auto.
      apply String.eqb_refl.
  - split; [discriminate | intros (s & H & _); discriminate].
Qed.

(** C8 (amended): on an options object with a select list, the wrapper
    keeps exactly the entries that are strings naming a declared column;
    take, skip and order are unchanged, a where or relations field that is
    present is unchanged, and an absent one is filled with the default
    (primary key above 0, all declared relations).  The filtering step
    alone, [filterOutInvalidSelectValues], changes nothing but select. *)
Theorem wrapper_filters_select (repository : Repository) (o : FindManyOptions)
    (entries : list Js.Prim) :
  select o = Some (SelArray entries) ->
  (where_ o <> None \/ exists pk, TypeOrm.getPrimaryKey repository = Ok pk) ->
  let kept :=
    List.filter (TypeOrm.valid_select (TypeOrm.getColumnNames repository)) entries in
  (forall e, In e kept <->
             In e entries /\
             exists s, e = Js.Str s /\ In s (TypeOrm.getColumnNames repository))
  /\ TypeOrm.filterOutInvalidSelectValues repository o = Ok (set_select (SelArray kept) o)
  /\ exists o',
      TypeOrm.findAllOptionsWrapper repository (Some o) = Ok o'
      /\ select o' = Some (SelArray kept)
      /\ take o' = take o /\ skip o' = skip o /\ order o' = order o
      /\ where_ o' =
           match where_ o, TypeOrm.getPrimaryKey repository with
           | Some w, _ => Some w
           | None, Ok pk => Some (TypeOrm.primary_key_positive pk)
           | None, Throw _ => None
           end
      /\ relations_opt o' =
           match relations_opt o with
           | Some r => Some r
           | None => Some (RelArray (relations (metadata repository)))
           end.
Proof.
  intros Hsel Hwhere kept. split; [|split].
  - intros e. subst kept. rewrite filter_In, valid_select_spec. reflexivity.
  - unfold TypeOrm.filterOutInvalidSelectValues. rewrite Hsel. reflexivity.
  - unfold TypeOrm.findAllOptionsWrapper, TypeOrm.handleEmptyOptions,
      TypeOrm.handleEmptyWhere. cbn [res_bind].
    destruct (where_ o) as [w|] eqn:Hw.
    + cbn [res_bind]. unfold TypeOrm.handleEmptyRelations.
      destruct (relations_opt o) as [r|] eqn:Hr;
        unfold TypeOrm.filterOutInvalidSelectValues; cbn; rewrite Hsel;
        eexists; split; try reflexivity; cbn; rewrite ?Hw, ?Hr; repeat split.
    + destruct Hwhere as [Hne | (pk & Hpk)]; [congruence|].
      rewrite Hpk. cbn [res_bind]. unfold TypeOrm.handleEmptyRelations.
      cbn [relations_opt set_where].
      destruct (relations_opt o) as [r|] eqn:Hr;
        unfold TypeOrm.filterOutInvalidSelectValues; cbn; rewrite Hsel;
        eexists; split; try reflexivity; cbn; rewrite ?Hr; repeat split.
Qed.

Lemma wrapper_filters_select_witness :
  exists o',
    TypeOrm.findAllOptionsWrapper books (Some (only_select ["id"; "bogus"])) = Ok o'
    /\ select o' = Some (SelArray [Js.Str "id"]).
Proof.
  destruct (wrapper_filters_select books (only_select ["id"; "bogus"])
              [Js.Str "id"; Js.Str "bogus"] eq_refl
              (or_intror (ex_intro _ "id" eq_refl)))
    as (_ & _ & o' & Hrun & Hsel & _).
  exists o'. split; [exact Hrun | exact Hsel].
Defined.

(** C8, as stated, fails: on a select-only options object the wrapper
    also fills in where and relations. *)
Lemma wrapper_fills_other_fields :
  TypeOrm.findAllOptionsWrapper books (Some (only_select ["id"; "bogus"]))
  = Ok {| take := None; skip := None; order := None;
          select := Some (SelArray [Js.Str "id"]);
          relations_opt := Some (RelArray ["author"]);
          where_ := Some (WhereOne [("id", WOp (MoreThan (Js.Num 0)))]) |}
  /\ where_ (only_select ["id"; "bogus"]) = None
  /\ relations_opt (only_select ["id"; "bogus"]) = None.
Proof.
  repeat split.
Qed.

(** ** Calls without options *)

(** C10: when options are omitted, the wrapper substitutes primary key
    above 0, ordered by created_at descending (and all declared
    relations); [findAll], [count], [sum] and [avg] hand exactly that
    constrained query to the repository, and when the table has no primary
    key they throw without reaching the repository. *)
Theorem omitted_options_are_constrained {DB : Type} {backend : Backend DB}
    (repository : Repository) (metric : string) (db : DB) :
  match TypeOrm.getPrimaryKey repository with
  | Ok pk =>
      TypeOrm.findAllOptionsWrapper repository None
      = Ok (defaulted_options repository pk)
      /\ where_ (defaulted_options repository pk)
         = Some (WhereOne [(pk, WOp (MoreThan (Js.Num 0)))])
      /\ order (defaulted_options repository pk) = Some [("created_at", "DESC")]
      /\ Query.findAll repository None db
         = repository_find repository (defaulted_options repository pk) db
      /\ Query.count repository None db
         = repository_count repository (defaulted_options repository pk) db
      /\ Query.sum repository metric None db
         = (let* result :=
              where_select_execute repository
                (Some (WhereOne [(pk, WOp (MoreThan (Js.Num 0)))]))
                ("SUM(" ++ metric ++ ") as sum") in
            Query.first_row_field "sum" result) db
      /\ Query.avg repository metric None db
         = (let* result :=
              where_select_execute repository
                (Some (WhereOne [(pk, WOp (MoreThan (Js.Num 0)))]))
                ("AVG(" ++ metric ++ ") as average") in
            Query.first_row_field "average" result) db
  | Throw e =>
      TypeOrm.findAllOptionsWrapper repository None = Throw e
      /\ Query.findAll repository None db = (Throw e, db)
      /\ Query.count repository None db = (Throw e, db)
      /\ Query.sum repository metric None db = (Throw e, db)
      /\ Query.avg repository metric None db = (Throw e, db)
  end.
Proof.
  unfold Query.findAll, Query.count, Query.sum, Query.avg, bind, lift_res,
    TypeOrm.findAllOptionsWrapper, TypeOrm.handleEmptyOptions.
  destruct (TypeOrm.getPrimaryKey repository) as [pk|e]; cbn;
    repeat split; reflexivity.
Qed.

(** ** Bulk import *)

Section BulkLoops.

Context {DB : Type} {backend : Backend DB}.

Lemma keeps_ret {A} (a : A) : keeps_bookkeeping (DB := DB) (ret a).
Proof. intros s. cbn. auto. Qed.

Lemma keeps_throw {A} (e : string) : keeps_bookkeeping (DB := DB) (A := A) (throw e).
Proof. intros s. cbn. auto. Qed.

Lemma keeps_lift_res {A} (r : Res A) : keeps_bookkeeping (DB := DB) (lift_res r).
Proof. intros s. cbn. auto. Qed.

Lemma keeps_lift_db {A} (c : M DB A) : keeps_bookkeeping (Query.lift_db c).
Proof.
  intros s. unfold Query.lift_db. destruct (c (snd s)). cbn. auto.
Qed.

Lemma keeps_bind {A B} (c : M (BulkUploadResponse * DB) A)
    (k : A -> M (BulkUploadResponse * DB) B) :
  keeps_bookkeeping c -> (forall a, keeps_bookkeeping (k a)) ->
  keeps_bookkeeping (let* x := c in k x).
Proof.
  intros Hc Hk s. unfold bind. specialize (Hc s).
  destruct (c s) as [[a|e] s1]; cbn in *; [|exact Hc].
  specialize (Hk a s1). destruct Hc as (? & ? & ? & ?).
  destruct Hk as (? & ? & ? & ?). repeat split; congruence.
Qed.

Lemma keeps_modify (f : BulkUploadResponse -> BulkUploadResponse) :
  (forall r, total (f r) = total r /\ processed (f r) = processed r
             /\ errored (f r) = errored r /\ errors (f r) = errors r) ->
  keeps_bookkeeping (DB := DB) (Query.modify_result f).
Proof. intros Hf s. cbn. apply Hf. Qed.

Ltac keeps :=
  repeat first
    [ apply keeps_ret | apply keeps_throw | apply keeps_lift_res
    | apply keeps_lift_db
    | apply keeps_bind; [|intros ?]
    | match goal with
      | |- keeps_bookkeeping (match ?x with _ => _ end) => destruct x
      | |- keeps_bookkeeping (Query.modify_result (match ?x with _ => _ end)) =>
          destruct x
      end
    | apply keeps_modify; intros ?; cbn; repeat split ].

Lemma create_row_keeps (repository : Repository) (record : Entity) :
  keeps_bookkeeping (Query.create_row repository record).
Proof. unfold Query.create_row. keeps. Qed.

Lemma upsert_row_keeps (repository : Repository) (f : string) (record : Entity) :
  keeps_bookkeeping (Query.upsert_row repository f record).
Proof. unfold Query.upsert_row. keeps. Qed.

Lemma delete_row_keeps (repository : Repository) (f : string) (record : Entity) :
  keeps_bookkeeping (Query.delete_row repository f record).
Proof. unfold Query.delete_row. keeps. Qed.

Lemma guarded_row_keeps (repository : Repository) (mode : ImportMode)
    (dedup : option string) (record : Entity) :
  keeps_bookkeeping (guarded_row repository mode dedup record).
Proof.
  destruct mode; cbn;
    auto using create_row_keeps, upsert_row_keeps, delete_row_keeps.
Qed.

(** One turn of a loop, by the outcome of its guarded statements. *)
Lemma bulk_row_run (body : M (BulkUploadResponse * DB) unit)
    (s : BulkUploadResponse * DB) :
  Query.bulk_row body s =
  (Ok tt,
   match fst (body s) with
   | Ok _ => (Query.incr_processed (fst (snd (body s))), snd (snd (body s)))
   | Throw e =>
       (Query.incr_processed (Query.record_error e (fst (snd (body s)))),
        snd (snd (body s)))
   end).
Proof.
  unfold Query.bulk_row, bind, try_catch, Query.modify_result.
  destruct (body s) as [[u|e] [r db]]; reflexivity.
Qed.

Lemma bulk_loop_cons (body : Entity -> M (BulkUploadResponse * DB) unit)
    (record : Entity) (rest : list Entity) (s : BulkUploadResponse * DB) :
  for_of (record :: rest) (fun record => Query.bulk_row (body record)) s
  = for_of rest (fun record => Query.bulk_row (body record))
      (snd (Query.bulk_row (body record) s)).
Proof.
  cbn [for_of]. unfold bind. rewrite bulk_row_run. reflexivity.
Qed.

(** The loop never throws; it counts every row as processed and records
    exactly the messages thrown by the guarded statements. *)
Lemma bulk_loop_run (body : Entity -> M (BulkUploadResponse * DB) unit)
    (data : list Entity) :
  (forall record, keeps_bookkeeping (body record)) ->
  forall s,
    let run := for_of data (fun record => Query.bulk_row (body record)) s in
    fst run = Ok tt
    /\ total (fst (snd run)) = total (fst s)
    /\ processed (fst (snd run)) = processed (fst s) + Z.of_nat (List.length data)
    /\ errored (fst (snd run))
       = errored (fst s) + Z.of_nat (List.length (thrown (row_outcomes body data s)))
    /\ errors_list (fst (snd run))
       = (errors_list (fst s) ++ thrown (row_outcomes body data s))%list.
Proof.
  intros Hbody. induction data as [|record rest IH]; intros s run.
  - subst run. cbn. rewrite app_nil_r. repeat split; lia.
  - subst run. rewrite bulk_loop_cons. cbn [row_outcomes].
    specialize (IH (snd (Query.bulk_row (body record) s))). cbn zeta in IH.
    destruct IH as (Hok & Htot & Hproc & Herr & Hlist).
    rewrite Hok, Htot, Hproc, Herr, Hlist. clear Hok Htot Hproc Herr Hlist.
    rewrite bulk_row_run. cbn [snd].
    destruct (Hbody record s) as (Kt & Kp & Ke & Kl).
    destruct (body record s) as [[u|e] [r1 db1]]; cbn [fst snd] in *.
    + cbn [thrown].
      replace (errors_list (Query.incr_processed r1)) with (errors_list (fst s))
        by (unfold errors_list; cbn; now rewrite Kl).
      cbn. repeat split; try lia; congruence.
    + cbn [thrown List.length].
      replace (errors_list (Query.incr_processed (Query.record_error e r1)))
        with (errors_list (fst s) ++ [e])%list
        by (unfold errors_list; cbn; rewrite Kl; now destruct (errors (fst s))).
      rewrite <- app_assoc. cbn. repeat split; try lia; congruence.
Qed.

Lemma row_outcomes_length (body : Entity -> M (BulkUploadResponse * DB) unit)
    (data : list Entity) (s : BulkUploadResponse * DB) :
  List.length (row_outcomes body data s) = List.length data.
Proof.
  revert s. induction data as [|record rest IH]; intros s; cbn; [reflexivity|].
  now rewrite IH.
Qed.

(** Wrapping the loop: the accumulator comes back, never an error. *)
Lemma with_result_run (init : BulkUploadResponse)
    (body : Entity -> M (BulkUploadResponse * DB) unit) (data : list Entity) (db : DB) :
  (forall record, keeps_bookkeeping (body record)) ->
  let run := for_of data (fun record => Query.bulk_row (body record)) (init, db) in
  Query.with_result init (for_of data (fun record => Query.bulk_row (body record))) db
  = (Ok (fst (snd run)), snd (snd run)).
Proof.
  intros Hbody run. unfold Query.with_result. fold run.
  pose proof (bulk_loop_run body data Hbody (init, db)) as (Hok & _).
  fold run in Hok. destruct run as [[u|e] [r db']]; cbn in *; congruence.
Qed.

End BulkLoops.

Section BulkModes.

Context {DB : Type} {backend : Backend DB}.

Lemma thrown_nth (outcomes : list (Res unit)) (i : nat) (e : string) :
  nth_error outcomes i = Some (Throw e) -> In e (thrown outcomes).
Proof.
  revert i. induction outcomes as [|o rest IH]; intros [|i] H; cbn in *;
    try discriminate.
  - injection H as ->. now left.
  - destruct o; [|right]; eauto.
Qed.

(** Each bulk function returns the accumulator its loop built. *)
Lemma bulk_function_run (repository : Repository) (data : list Entity)
    (mode : ImportMode) (dedup : option string) (db : DB) :
  let init :=
    Query.initial_result data (match mode with DELETE => None | _ => Some [] end) in
  let run :=
    for_of data
      (fun record => Query.bulk_row (guarded_row repository mode dedup record))
      (init, db) in
  Query.with_result init
    (for_of data
       (fun record => Query.bulk_row (guarded_row repository mode dedup record))) db
  = (Ok (fst (snd run)), snd (snd run))
  /\ total (fst (snd run)) = Z.of_nat (List.length data)
  /\ processed (fst (snd run)) = Z.of_nat (List.length data)
  /\ errored (fst (snd run))
     = Z.of_nat (List.length (thrown (bulk_outcomes repository data mode dedup db)))
  /\ errors_list (fst (snd run)) = thrown (bulk_outcomes repository data mode dedup db).
Proof.
  intros init run.
  pose proof (guarded_row_keeps repository mode dedup) as Hkeeps.
  split; [apply with_result_run; exact Hkeeps|].
  pose proof (bulk_loop_run _ data Hkeeps (init, db)) as (_ & Ht & Hp & He & Hl).
  fold run in Ht, Hp, He, Hl. unfold bulk_outcomes. fold init.
  rewrite Ht, Hp, He, Hl. subst init. destruct mode; cbn; repeat split; lia.
Qed.

Lemma bulk_supported_mode (repository : Repository) (data : list Entity)
    (mode : ImportMode) (dedup : option string) (db : DB) :
  mode = CREATE \/ ((mode = UPSERT \/ mode = DELETE) /\ Query.missing dedup = false) ->
  Query.bulk repository data mode dedup db
  = Query.with_result
      (Query.initial_result data (match mode with DELETE => None | _ => Some [] end))
      (for_of data
         (fun record => Query.bulk_row (guarded_row repository mode dedup record))) db.
Proof.
  intros [-> | [[-> | ->] Hdedup]]; unfold Query.bulk.
  - unfold bind, ret, Query.createBulkRecords. cbn [guarded_row].
    match goal with |- context [Query.with_result ?i ?l db] =>
      destruct (Query.with_result i l db) as [[r|e] db'] end; reflexivity.
  - destruct dedup as [f|]; [|discriminate]. rewrite Hdedup.
    unfold bind, ret, Query.upsertBulkRecords. cbn [guarded_row].
    match goal with |- context [Query.with_result ?i ?l db] =>
      destruct (Query.with_result i l db) as [[r|e] db'] end; reflexivity.
  - destruct dedup as [f|]; [|discriminate]. rewrite Hdedup.
    unfold bind, ret, Query.deleteBulkRecords. cbn [guarded_row].
    match goal with |- context [Query.with_result ?i ?l db] =>
      destruct (Query.with_result i l db) as [[r|e] db'] end; reflexivity.
Qed.

(** C2: in CREATE mode, and in UPSERT and DELETE mode with a dedup field,
    [bulk] returns a result for any list of rows: every row is attempted,
    the error of each failing row is caught and its message appended to
    [errors] in order, [errored] counts them, and [processed] equals
    [total], the length of the input. *)
Theorem bulk_never_aborts (repository : Repository) (data : list Entity)
    (mode : ImportMode) (dedup : option string) (db : DB) :
  mode = CREATE \/ ((mode = UPSERT \/ mode = DELETE) /\ Query.missing dedup = false) ->
  let outcomes := bulk_outcomes repository data mode dedup db in
  exists result db',
    Query.bulk repository data mode dedup db = (Ok result, db')
    /\ List.length outcomes = List.length data
    /\ total result = Z.of_nat (List.length data)
    /\ processed result = total result
    /\ errored result = Z.of_nat (List.length (thrown outcomes))
    /\ errors_list result = thrown outcomes
    /\ forall i e, nth_error outcomes i = Some (Throw e) -> In e (errors_list result).
Proof.
  intros Hmode outcomes.
  rewrite (bulk_supported_mode repository data mode dedup db Hmode).
  destruct (bulk_function_run repository data mode dedup db)
    as (Hrun & Ht & Hp & He & Hl).
  rewrite Hrun. eexists. eexists. split; [reflexivity|].
  fold outcomes in He, Hl.
  split; [apply row_outcomes_length|].
  repeat split; try congruence.
  intros i e Hi. rewrite Hl. eapply thrown_nth; eauto.
Qed.

(** The guarded statements of CREATE count a row as created exactly when
    they do not throw. *)
Lemma create_row_created (repository : Repository) (record : Entity)
    (s : BulkUploadResponse * DB) :
  created (fst (snd (Query.create_row repository record s)))
  = match fst (Query.create_row repository record s) with
    | Ok _ => created (fst s) + 1
    | Throw _ => created (fst s)
    end.
Proof.
  unfold Query.create_row, bind, Query.lift_db, Query.create, try_catch, bind,
    ret, throw, lift_res, Query.modify_result.
  destruct (repository_save repository record (snd s)) as [[e|m] db']; cbn;
    [|reflexivity].
  destruct (Query.getPrimaryKey repository); reflexivity.
Qed.

Lemma create_loop_created (repository : Repository) (data : list Entity) :
  forall s,
    created (fst (snd (for_of data
                         (fun record =>
                            Query.bulk_row (Query.create_row repository record)) s)))
    = created (fst s) + Z.of_nat (List.length data)
      - Z.of_nat (List.length
                    (thrown (row_outcomes (Query.create_row repository) data s))).
Proof.
  induction data as [|record rest IH]; intros s.
  - cbn. lia.
  - rewrite bulk_loop_cons, IH. cbn [row_outcomes]. rewrite bulk_row_run. cbn [snd].
    pose proof (create_row_created repository record s) as Hc.
    destruct (Query.create_row repository record s) as [[u|e] [r1 db1]];
      cbn [fst snd thrown List.length] in *; cbn; lia.
Qed.

(** C3: in CREATE mode over N rows of which at least one fails, the result
    has total N, errored equal to the number of failing rows and at least
    1, created equal to N minus errored, and the message of every failing
    row in [errors]. *)
Theorem create_bulk_counts (repository : Repository) (data : list Entity)
    (dedup : option string) (db : DB) :
  let outcomes := bulk_outcomes repository data CREATE dedup db in
  (exists i e, nth_error outcomes i = Some (Throw e)) ->
  exists result db',
    Query.bulk repository data CREATE dedup db = (Ok result, db')
    /\ total result = Z.of_nat (List.length data)
    /\ errored result = Z.of_nat (List.length (thrown outcomes))
    /\ 1 <= errored result
    /\ created result = Z.of_nat (List.length data) - errored result
    /\ forall i e, nth_error outcomes i = Some (Throw e) -> In e (errors_list result).
Proof.
  intros outcomes (i0 & e0 & Hfail).
  rewrite (bulk_supported_mode repository data CREATE dedup db (or_introl eq_refl)).
  destruct (bulk_function_run repository data CREATE dedup db)
    as (Hrun & Ht & Hp & He & Hl).
  fold outcomes in He, Hl. rewrite Hrun. eexists. eexists.
  split; [reflexivity|].
  assert (Hin : In e0 (thrown outcomes)) by (eapply thrown_nth; eauto).
  assert (Hpos : (0 < List.length (thrown outcomes))%nat)
    by (destruct (thrown outcomes); [destruct Hin | cbn; lia]).
  repeat split; try assumption; try lia.
  - rewrite He. cbn [guarded_row]. rewrite create_loop_created.
    unfold outcomes, bulk_outcomes. cbn [guarded_row]. cbn. lia.
  - intros i e Hi. rewrite Hl. eapply thrown_nth; eauto.
Qed.

(** C9: [update] throws when the payload has no value under the primary
    key, and [bulk] throws in UPSERT or DELETE mode when no dedup field is
    given; the call ends with the error and the database is as it was. *)
Theorem configuration_errors_precede_writes (repository : Repository)
    (payload : Entity) (relations : list string) (data : list Entity)
    (mode : ImportMode) (dedup : option string) (db : DB) :
  (forall pk, Query.getPrimaryKey repository = Ok pk -> Js.get pk payload = None) ->
  mode = UPSERT \/ mode = DELETE ->
  Query.missing dedup = true ->
  Query.update repository payload relations db
  = (Throw match Query.getPrimaryKey repository with
           | Ok pk => "Primary key " ++ pk ++ " missing from update to "
                      ++ tableName (metadata repository)
           | Throw e => e
           end, db)
  /\ Query.bulk repository data mode dedup db
     = (Throw "Dedup field required for update", db).
Proof.
  intros Hpk Hmode Hdedup. split.
  - unfold Query.update, Query.getRecordId, bind, lift_res, throw.
    destruct (Query.getPrimaryKey repository) as [pk|e] eqn:Hk; cbn; [|reflexivity].
    unfold field. rewrite (Hpk pk eq_refl). reflexivity.
  - unfold Query.bulk, bind, throw.
    destruct Hmode as [-> | ->]; destruct dedup as [f|]; cbn in *;
      try rewrite Hdedup; reflexivity.
Qed.

(** In REPOPULATE mode the create phase never reaches the [catch] block:
    when the copy can be dropped afterwards, the call ends in the state
    that the drop left, whatever the rows did. *)
Lemma repopulate_without_restore (repository : Repository) (data : list Entity)
    (db0 db1 db2 : DB) :
  Query.copyTable repository None db0 = (Ok tt, db1) ->
  Query.truncate repository db1 = (Ok tt, db2) ->
  exists result db3,
    Query.createBulkRecords repository data db2 = (Ok result, db3)
    /\ forall db4,
        Query.dropTable repository (tableName (metadata repository) ++ "_COPY") db3
        = (Ok tt, db4) ->
        Query.bulk repository data REPOPULATE None db0 = (Ok result, db4).
Proof.
  intros Hcopy Htrunc.
  destruct (bulk_function_run repository data REPOPULATE None db2) as (Hrun & _).
  cbn [guarded_row] in Hrun. eexists. eexists. split; [exact Hrun|].
  intros db4 Hdrop.
  unfold Query.bulk, Query.repopulate, bind at 1 2 3.
  rewrite Hcopy, Htrunc. unfold Query.createBulkRecords. rewrite Hrun.
  unfold bind, try_catch, ret. rewrite Hdrop. reflexivity.
Qed.

End BulkModes.

(** ** Runs on the reference backend *)

Lemma bulk_never_aborts_witness :
  exists result db',
    Query.bulk (backend := MemoryDb.backend) books
      [book 1 "Ulysses"; untitled 2; book 3 "Dubliners"] UPSERT (Some "id") library
    = (Ok result, db')
    /\ processed result = total result
    /\ errors_list result = ["Field 'title' doesn't have a default value"].
Proof.
  destruct (bulk_never_aborts (backend := MemoryDb.backend) books
              [book 1 "Ulysses"; untitled 2; book 3 "Dubliners"] UPSERT (Some "id")
              library (or_intror (conj (or_introl eq_refl) eq_refl)))
    as (result & db' & Hrun & _ & _ & Hp & _ & Hl & _).
  exists result, db'. split; [exact Hrun|]. split; [exact Hp|].
  rewrite Hl. vm_compute. reflexivity.
Defined.

Lemma create_bulk_counts_witness :
  exists result db',
    Query.bulk (backend := MemoryDb.backend) books
      [book 1 "Ulysses"; untitled 2; book 3 "Dubliners"] CREATE None library
    = (Ok result, db')
    /\ total result = 3 /\ 1 <= errored result
    /\ created result = 3 - errored result.
Proof.
  destruct (create_bulk_counts (backend := MemoryDb.backend) books
              [book 1 "Ulysses"; untitled 2; book 3 "Dubliners"] None library)
    as (result & db' & Hrun & Ht & _ & He & Hc & _).
  - exists 1%nat, "Field 'title' doesn't have a default value".
    vm_compute. reflexivity.
  - exists result, db'. repeat split; assumption.
Defined.

Lemma configuration_errors_precede_writes_witness :
  Query.update (backend := MemoryDb.backend) books [("title", Js.Str "Emma")] [] library
  = (Throw "Primary key id missing from update to books", library)
  /\ Query.bulk (backend := MemoryDb.backend) books [book 1 "Ulysses"] DELETE None library
     = (Throw "Dedup field required for update", library).
Proof.
  apply (configuration_errors_precede_writes (backend := MemoryDb.backend) books
           [("title", Js.Str "Emma")] [] [book 1 "Ulysses"] DELETE None library).
  - intros pk Hpk. vm_compute in Hpk. injection Hpk as <-. reflexivity.
  - right. reflexivity.
  - reflexivity.
Defined.

(** C1: a REPOPULATE import whose second row is rejected.  The error is
    caught inside [createBulkRecords], so the [catch] block of [bulk] is
    not entered: the copy is dropped and the live table holds the rows
    that could be created, not the row it held before the call. *)
Theorem repopulate_row_failure_is_not_restored :
  let run :=
    Query.bulk (backend := MemoryDb.backend) books
      [book 1 "Ulysses"; untitled 2; book 3 "Dubliners"] REPOPULATE None library in
  library !! "books" = Some [book 7 "Emma"]
  /\ fst run
     = Ok {| total := 3; processed := 3; created := 2; updated := 0; deleted := 0;
             errored := 1;
             errors := Some ["Field 'title' doesn't have a default value"];
             ids := [Js.Num 1; Js.Num 3] |}
  /\ snd run !! "books" = Some [book 1 "Ulysses"; book 3 "Dubliners"]
  /\ snd run !! "books_COPY" = None.
Proof.
  vm_compute. repeat split.
Qed.

(** ** The filter builder *)

(** *** Strings *)

Lemma append_empty (s : string) : "" ++ s = s.
Proof. reflexivity. Qed.

Lemma append_cons (a : ascii) (s t : string) : String a s ++ t = String a (s ++ t).
Proof. reflexivity. Qed.

Ltac string_step := rewrite ?append_empty, ?append_cons; cbn.

Lemma indexOf_from_app (c : ascii) (p t : string) (i : Z) :
  Js.includes c p = false ->
  Js.indexOf_from c (p ++ String c t) i = i + Z.of_nat (String.length p).
Proof.
  revert i. induction p as [|a p IH]; intros i Hp; string_step.
  - rewrite Ascii.eqb_refl. lia.
  - cbn in Hp. apply orb_false_iff in Hp as [Ha Hp]. rewrite Ha, IH by exact Hp. lia.
Qed.

Lemma substring_prefix (p x : string) : substring 0 (String.length p) (p ++ x) = p.
Proof.
  induction p as [|a p IH]; string_step.
  - destruct x; reflexivity.
  - now rewrite IH.
Qed.

Lemma substring_all (t : string) : substring 0 (String.length t) t = t.
Proof.
  induction t as [|a t IH]; cbn; [reflexivity | now rewrite IH].
Qed.

Lemma substring_skip (p : string) (c : ascii) (t : string) (m : nat) :
  substring (String.length p + 1) m (p ++ String c t) = substring 0 m t.
Proof.
  induction p as [|a p IH]; string_step; [reflexivity | exact IH].
Qed.

Lemma length_append (p t : string) :
  String.length (p ++ t) = (String.length p + String.length t)%nat.
Proof.
  induction p as [|a p IH]; string_step; [reflexivity | now rewrite IH].
Qed.

Lemma splitStringByFirstColon_prefix (prefix text : string) :
  Js.includes ":" prefix = false ->
  Query.splitStringByFirstColon (prefix ++ ":" ++ text) = [prefix; text].
Proof.
  intros Hp. unfold Query.splitStringByFirstColon, Js.indexOf.
  change (":" ++ text) with (String ":" text).
  rewrite indexOf_from_app by exact Hp.
  destruct (Z.eqb_spec (0 + Z.of_nat (String.length prefix)) (-1)) as [Hneg|_];
    [lia|].
  unfold Js.slice, Js.slice_from. f_equal; [|f_equal].
  - replace (Z.to_nat (0 + Z.of_nat (String.length prefix) - 0))
      with (String.length prefix) by lia.
    apply substring_prefix.
  - replace (Z.to_nat (0 + Z.of_nat (String.length prefix) + 1))
      with (String.length prefix + 1)%nat by lia.
    rewrite substring_skip, length_append. cbn [String.length].
    replace (String.length prefix + S (String.length text)
             - (String.length prefix + 1))%nat
      with (String.length text) by lia.
    apply substring_all.
Qed.

Lemma split_without (c : ascii) (s : string) :
  Js.includes c s = false -> Js.split c s = [s].
Proof.
  induction s as [|a s IH]; cbn [Js.split Js.includes]; [reflexivity|].
  intros H. apply orb_false_iff in H as [Ha Hs]. now rewrite Ha, IH.
Qed.




(** *** Objects *)

Lemma get_set_same {V} (k : string) (v : V) (o : Js.Obj V) :
  Js.get k (Js.set k v o) = Some v.
Proof.
  induction o as [|[k' v'] o IH]; cbn.
  - now rewrite String.eqb_refl.
  - destruct (String.eqb k' k) eqn:E; cbn; rewrite E; auto.
Qed.

Lemma get_set_other {V} (k k' : string) (v : V) (o : Js.Obj V) :
  k' <> k -> Js.get k (Js.set k' v o) = Js.get k o.
Proof.
  intros Hne. induction o as [|[k0 v0] o IH]; cbn.
  - destruct (String.eqb_spec k' k); congruence.
  - destruct (String.eqb_spec k0 k') as [->|Hk]; cbn.
    + destruct (String.eqb_spec k' k); congruence.
    + now rewrite IH.
Qed.

Lemma get_remove_same {V} (k : string) (o : Js.Obj V) :
  Js.get k (Js.remove k o) = None.
Proof.
  induction o as [|[k' v'] o IH]; cbn; [reflexivity|].
  destruct (String.eqb k' k) eqn:E; cbn; [|rewrite E]; exact IH.
Qed.

Lemma get_remove_other {V} (k k' : string) (o : Js.Obj V) :
  k' <> k -> Js.get k (Js.remove k' o) = Js.get k o.
Proof.
  intros Hne. induction o as [|[k0 v0] o IH]; cbn; [reflexivity|].
  destruct (String.eqb_spec k0 k') as [->|Hk]; cbn.
  - rewrite IH. destruct (String.eqb_spec k' k); congruence.
  - now rewrite IH.
Qed.


(** *** The enum table *)

Section EnumTable.

Variable E : Js.Obj string.
Hypothesis distinct_values : List.NoDup (map snd E).





End EnumTable.

(** *** Operator prefixes *)

Section OperatorPrefix.

Variable E : Js.Obj string.
Hypothesis distinct_values : List.NoDup (map snd E).
Hypothesis member_names :
  forall name, In name (Js.keys E) -> name <> "" /\ Js.includes ":" name = false.








End OperatorPrefix.

(** *** Dotted keys *)

Section DottedKeys.

Variable E : Js.Obj string.



Lemma split_nonempty (c : ascii) (s : string) : Js.split c s <> [].
Proof.
  destruct s as [|a s]; cbn; [discriminate|].
  destruct (Ascii.eqb a c); [discriminate|].
  destruct (Js.split c s); discriminate.
Qed.

Lemma top_key_plain (key : string) : Js.includes "." key = false -> top_key key = key.
Proof. intros H. unfold top_key. now rewrite split_without. Qed.

(** What one entry does to the base clause: nothing, or one assignment to
    the property named by the top segment of its key. *)
Lemma whereBase_step_writes (repository : Repository) (whereBase after : FindOptionsWhere)
    (key : string) (value : QueryValue) :
  Query.whereBase_step E repository whereBase (key, value) = Ok after ->
  after = whereBase \/ exists v, after = Js.set (top_key key) v whereBase.
Proof.
  unfold Query.whereBase_step.
  destruct (Query.declared repository _); [|intros [= <-]; now left].
  destruct (Query.reduce E (Query.castArray value) []) as [ops|e]; cbn [res_bind];
    [|discriminate].
  destruct (Js.includes "." key) eqn:Hdot; intros [= <-].
  - unfold Query.createWhereRelations.
    destruct (negb _); [now left|]. unfold top_key.
    pose proof (split_nonempty "." key) as Hne.
    destruct (Js.split "." key) as [|k [|k2 rest]]; [contradiction| |];
      cbn [Query.nest nth]; destruct (String.eqb k "__proto__");
      solve [now left | right; eexists; reflexivity].
  - right. rewrite top_key_plain by exact Hdot. eexists. reflexivity.
Qed.






(** *** The "undefined" artifact *)

Lemma string_is_no_artifact (s : string) :
  Query.is_undefined_artifact (Some (QString s)) = false.
Proof.
  destruct s as [|x [|y s]]; cbn; try reflexivity.
  destruct x as [[] [] [] [] [] [] [] []]; reflexivity.
Qed.

Lemma whereBase_loop_remove (repository : Repository) (k : string)
    (query : Js.Obj QueryValue) :
  Query.declared repository k = false -> Js.includes "." k = false ->
  forall whereBase,
    Query.whereBase_loop E repository (Js.remove k query) whereBase
    = Query.whereBase_loop E repository query whereBase.
Proof.
  intros Hk Hdot. induction query as [|[k' v] rest IH]; intros whereBase;
    cbn [Js.remove]; [reflexivity|].
  destruct (String.eqb_spec k' k) as [->|Hne].
  - rewrite IH. cbn [Query.whereBase_loop].
    unfold Query.whereBase_step. rewrite Hdot, Hk. reflexivity.
  - cbn [Query.whereBase_loop].
    destruct (Query.whereBase_step E repository whereBase (k', v)); cbn; auto.
Qed.

(** C5 (amended): a search value that is the one-element array
    ["undefined"] is treated as absent: the result is the base clause
    alone, and search is gone from the query object.  A search value that
    is a non-empty string, "undefined" included, is searched for in every
    search field.  A relations value, whatever it is, takes no part in the
    result when relations is not a declared property, and the one-element
    array ["undefined"] is removed from the query object when a search is
    performed. *)
Theorem buildWhere_undefined_artifact (repository : Repository)
    (query : Js.Obj QueryValue) (fields : list string) :
  (Js.get "search" query = Some (QArray ["undefined"]) ->
   Query.buildWhere E repository (Some query) (Some fields)
   = res_bind (Query.whereBase_loop E repository query [])
       (fun whereBase => Ok (WhereOne whereBase))
   /\ Js.get "search" (Query.query_after_buildWhere query (Some fields)) = None)
  /\ (forall s,
         Js.get "search" query = Some (QString s) -> s <> "" ->
         Query.buildWhere E repository (Some query) (Some fields)
         = res_bind (Query.whereBase_loop E repository query [])
             (fun whereBase =>
                Ok (WhereMany
                      (map (Query.search_clause repository whereBase s) fields))))
  /\ (Query.declared repository "relations" = false ->
      Query.buildWhere E repository (Some query) (Some fields)
      = Query.buildWhere E repository (Some (Js.remove "relations" query))
          (Some fields))
  /\ (forall s,
         Js.get "search" query = Some (QString s) -> s <> "" ->
         Js.get "relations" query = Some (QArray ["undefined"]) ->
         Js.get "relations" (Query.query_after_buildWhere query (Some fields)) = None).
Proof.
  split; [|split; [|split]].
  - intros Hsearch. unfold Query.buildWhere, Query.query_after_buildWhere,
      Query.query_after_search_cleanup.
    rewrite Hsearch. cbn [Query.is_undefined_artifact String.eqb Ascii.eqb
                            Bool.eqb].
    rewrite get_remove_same. cbn [Query.falsy orb]. split; [reflexivity|].
    apply get_remove_same.
  - intros s Hsearch Hs. unfold Query.buildWhere, Query.query_after_search_cleanup.
    rewrite Hsearch, string_is_no_artifact, Hsearch. cbn [Query.falsy].
    destruct (String.eqb_spec s "") as [|_]; [contradiction|]. reflexivity.
  - intros Hrel. unfold Query.buildWhere.
    rewrite whereBase_loop_remove by (exact Hrel || reflexivity).
    unfold Query.query_after_search_cleanup.
    rewrite (get_remove_other "search" "relations") by discriminate.
    destruct (Query.is_undefined_artifact (Js.get "search" query)).
    + now rewrite !get_remove_same.
    + now rewrite (get_remove_other "search" "relations") by discriminate.
  - intros s Hsearch Hs Hrel. unfold Query.query_after_buildWhere,
      Query.query_after_search_cleanup.
    rewrite Hsearch, string_is_no_artifact, Hsearch. cbn [Query.falsy].
    destruct (String.eqb_spec s "") as [|_]; [contradiction|].
    cbn [bool_decide orb negb]. rewrite Hrel.
    cbn. apply get_remove_same.
Qed.

End DottedKeys.

(** *** The builder on the sample table *)






Lemma buildWhere_undefined_artifact_witness :
  Query.buildWhere ComparisonOperator books
    (Some [("search", QArray ["undefined"])]) (Some ["title"])
  = Ok (WhereOne []).
Proof.
  destruct (buildWhere_undefined_artifact ComparisonOperator books
              [("search", QArray ["undefined"])] ["title"]) as (Hsearch & _).
  destruct (Hsearch eq_refl) as (Hrun & _). exact Hrun.
Defined.

(** C5, as stated, fails: the string "undefined" as the search value is
    searched for, where an absent search value gives the base clause. *)
Lemma search_string_undefined_is_searched :
  Query.buildWhere ComparisonOperator books
    (Some [("search", QString "undefined")]) (Some ["title"])
  = Ok (WhereMany [[("title", WOp (Like "%undefined%"))]])
  /\ Query.buildWhere ComparisonOperator books (Some []) (Some ["title"])
     = Ok (WhereOne []).
Proof. split; reflexivity. Qed.

(** * Further properties *)

(** ** Strings of the query *)

Lemma includes_decompose (c : ascii) (s : string) :
  Js.includes c s = true ->
  exists p t, s = p ++ String c t /\ Js.includes c p = false.
Proof.
  induction s as [|a s IH]; cbn [Js.includes]; [discriminate|].
  destruct (Ascii.eqb_spec a c) as [->|Hne]; cbn [orb].
  - intros _. exists "", s. split; reflexivity.
  - intros Hs. destruct (IH Hs) as (p & t & -> & Hp).
    exists (String a p), t. split; [reflexivity|].
    cbn [Js.includes]. destruct (Ascii.eqb_spec a c); [contradiction | exact Hp].
Qed.

Lemma indexOf_from_absent (c : ascii) (s : string) (i : Z) :
  Js.includes c s = false -> Js.indexOf_from c s i = -1.
Proof.
  revert i. induction s as [|a s IH]; intros i; cbn [Js.includes Js.indexOf_from];
    [reflexivity|].
  intros H. apply orb_false_iff in H as [Ha Hs]. rewrite Ha. now apply IH.
Qed.

(** X1: [splitStringByFirstColon] returns the input alone when it has no
    colon, and otherwise the text before the first colon and the text
    after it: the first part holds no colon, and the two parts joined by a
    colon are the input. *)
Theorem splitStringByFirstColon_parts (inputString : string) :
  (Js.includes ":" inputString = false
   /\ Query.splitStringByFirstColon inputString = [inputString])
  \/ (exists key value,
         Query.splitStringByFirstColon inputString = [key; value]
         /\ inputString = key ++ ":" ++ value
         /\ Js.includes ":" key = false).
Proof.
  destruct (Js.includes ":" inputString) eqn:Hcolon.
  - right. destruct (includes_decompose _ _ Hcolon) as (p & t & -> & Hp).
    exists p, t. split; [|split; [reflexivity | exact Hp]].
    now apply splitStringByFirstColon_prefix.
  - left. split; [reflexivity|].
    unfold Query.splitStringByFirstColon, Js.indexOf.
    now rewrite indexOf_from_absent.
Qed.

Lemma join_cons_nonempty (sep x : string) (rest : list string) :
  rest <> [] -> Js.join sep (x :: rest) = x ++ sep ++ Js.join sep rest.
Proof. destruct rest; [contradiction | reflexivity]. Qed.

Lemma join_split (c : ascii) (s : string) :
  Js.join (String c "") (Js.split c s) = s.
Proof.
  induction s as [|a s IH]; cbn [Js.split]; [reflexivity|].
  destruct (Ascii.eqb_spec a c) as [->|Hne].
  - rewrite join_cons_nonempty by apply split_nonempty. now rewrite IH.
  - pose proof (split_nonempty c s) as Hnil.
    destruct (Js.split c s) as [|h t]; [contradiction|].
    destruct t as [|h2 t].
    + cbn [Js.join] in *. now rewrite IH.
    + rewrite join_cons_nonempty in IH |- * by discriminate.
      rewrite <- IH. reflexivity.
Qed.

Lemma split_parts_clean (c : ascii) (s : string) :
  Forall (fun part => Js.includes c part = false) (Js.split c s).
Proof.
  induction s as [|a s IH]; cbn [Js.split].
  - constructor; [reflexivity | constructor].
  - destruct (Ascii.eqb a c) eqn:Ha.
    + constructor; [reflexivity | exact IH].
    + destruct (Js.split c s) as [|h t]; [repeat constructor; cbn; now rewrite Ha|].
      inversion IH; subst. constructor; [|assumption].
      cbn [Js.includes]. now rewrite Ha.
Qed.

(** X2: a non-empty select string given to [Query.findOptions] is cut at
    every comma: the select list of the options is never empty, no entry
    holds a comma, and the entries joined by commas are the string that
    was given. *)
Theorem findOptions_select_is_split (query : Query.ListQuery) (w : option Where)
    (fallback : option string) (s : string) :
  Query.q_select query = Some (QString s) -> s <> "" ->
  exists parts,
    select (Query.findOptions query w fallback) = Some (SelArray (map Js.Str parts))
    /\ parts <> []
    /\ Forall (fun part => Js.includes "," part = false) parts
    /\ Js.join "," parts = s.
Proof.
  intros Hsel Hs. exists (Js.split "," s).
  unfold Query.findOptions, Query.split_list. cbn [select]. rewrite Hsel.
  destruct (String.eqb_spec s "") as [|_]; [contradiction|].
  split; [reflexivity|]. split; [apply split_nonempty|].
  split; [apply split_parts_clean | apply join_split].
Qed.

Lemma findOptions_select_is_split_witness :
  exists parts,
    select (Query.findOptions
              {| Query.q_select := Some (QString "id,title"); Query.q_relations := None;
                 Query.limit := None; Query.offset := None;
                 Query.order_by := None; Query.order_by_type := None |}
              None None)
    = Some (SelArray (map Js.Str parts))
    /\ Js.join "," parts = "id,title".
Proof.
  destruct (findOptions_select_is_split
              {| Query.q_select := Some (QString "id,title"); Query.q_relations := None;
                 Query.limit := None; Query.offset := None;
                 Query.order_by := None; Query.order_by_type := None |}
              None None "id,title" eq_refl ltac:(discriminate))
    as (parts & Hsel & _ & _ & Hjoin).
  exists parts. split; assumption.
Defined.

(** ** Nested relation clauses *)

Lemma nest_path (keys : list string) (value : WhereValue) :
  plain_path keys = true -> keys <> [] ->
  path_get keys (WObj (Query.nest keys value)) = Some value.
Proof.
  induction keys as [|key rest IH]; [contradiction|]. intros Hplain _.
  cbn [plain_path forallb] in Hplain. apply andb_prop in Hplain as [Hkey Hrest].
  apply negb_true_iff in Hkey.
  destruct rest as [|next rest].
  - cbn [Query.nest]. rewrite Hkey. cbn. now rewrite String.eqb_refl.
  - cbn [Query.nest]. rewrite Hkey. cbn [path_get Js.get]. rewrite String.eqb_refl.
    apply IH; [exact Hrest | discriminate].
Qed.

Lemma nest_keys (keys : list string) (value : WhereValue) :
  plain_path keys = true -> keys <> [] ->
  Js.keys (Query.nest keys value) = [nth 0 keys ""].
Proof.
  intros Hplain Hne. destruct keys as [|key rest]; [contradiction|].
  cbn [plain_path forallb] in Hplain. apply andb_prop in Hplain as [Hkey _].
  apply negb_true_iff in Hkey.
  destruct rest; cbn [Query.nest]; rewrite Hkey; reflexivity.
Qed.

Lemma nest_own_path (keys : list string) (value : WhereValue) :
  plain_path keys = false ->
  path_get (own_path keys) (WObj (Query.nest keys value)) = Some (WObj []).
Proof.
  induction keys as [|key rest IH]; [discriminate|]. intros Hplain.
  cbn [plain_path forallb own_path] in *.
  destruct (String.eqb key "__proto__") eqn:Hkey.
  - destruct rest; cbn [Query.nest]; rewrite Hkey; reflexivity.
  - cbn [negb andb] in Hplain. destruct rest as [|next rest]; [discriminate|].
    cbn [Query.nest]. rewrite Hkey. cbn [path_get Js.get]. rewrite String.eqb_refl.
    apply IH. exact Hplain.
Qed.

Lemma nest_own_keys (keys : list string) (value : WhereValue) :
  plain_path keys = false ->
  Js.keys (Query.nest keys value) = firstn 1 (own_path keys).
Proof.
  destruct keys as [|key rest]; [discriminate|]. intros Hplain.
  cbn [plain_path forallb own_path] in *.
  destruct (String.eqb key "__proto__") eqn:Hkey.
  - destruct rest; cbn [Query.nest]; rewrite Hkey; reflexivity.
  - cbn [negb andb] in Hplain. destruct rest as [|next rest]; [discriminate|].
    cbn [Query.nest]. rewrite Hkey. reflexivity.
Qed.

(** X3: [createWhereRelations] on a dotted key of any depth.  When the
    first segment is not one of the given relations the result is the empty
    object.  When it is, and no segment is [__proto__], the result has the
    first segment as its only property and holds the value at the end of
    the path of the segments.  When it is and some segment is [__proto__],
    whose assignment creates no property, the value is not in the result:
    the properties created are those of the segments before the first
    [__proto__], one inside the other, and the last of them holds an empty
    object (the result itself is empty when the first segment is
    [__proto__]). *)
Theorem createWhereRelations_path (keyString : string) (value : WhereValue)
    (relations : list string) :
  let segments := Js.split "." keyString in
  let result := Query.createWhereRelations keyString value relations in
  if Js.arr_includes (top_key keyString) relations
  then if plain_path segments
       then Js.keys result = [top_key keyString]
            /\ path_get segments (WObj result) = Some value
       else Js.keys result = firstn 1 (own_path segments)
            /\ path_get (own_path segments) (WObj result) = Some (WObj [])
  else result = [].
Proof.
  cbv zeta. unfold Query.createWhereRelations, top_key.
  destruct (Js.arr_includes (nth 0 (Js.split "." keyString) "") relations);
    cbn [negb]; [|reflexivity].
  destruct (plain_path (Js.split "." keyString)) eqn:Hplain.
  - split; [apply nest_keys | apply nest_path];
      solve [exact Hplain | apply split_nonempty].
  - split; [apply nest_own_keys | apply nest_own_path]; exact Hplain.
Qed.

(** The key [author.__proto__.x] leaves [{author: {}}]: the value lands on
    a prototype, not in the clause. *)
Example createWhereRelations_proto_segment :
  Query.createWhereRelations "author.__proto__.x" (WLit (Js.Str "smith")) ["author"]
  = [("author", WObj [])]
  /\ Query.createWhereRelations "author.__proto__" (WLit (Js.Str "smith")) ["author"]
     = [("author", WObj [])]
  /\ Query.createWhereRelations "author.name.first" (WLit (Js.Str "smith")) ["author"]
     = [("author", WObj [("name", WObj [("first", WLit (Js.Str "smith"))])])].
Proof.
  repeat split; reflexivity.
Qed.

Lemma getRelations_fold (r : string) (names : list string) (acc : Js.Obj bool) :
  Js.get r (fold_left (fun result relation => Js.set relation true result) names acc)
  = if Js.arr_includes r names then Some true else Js.get r acc.
Proof.
  revert acc. induction names as [|x names IH]; intros acc; [reflexivity|].
  cbn [fold_left]. rewrite IH. unfold Js.arr_includes. cbn [existsb].
  fold (Js.arr_includes r names).
  destruct (Js.arr_includes r names); [now rewrite orb_true_r|].
  rewrite orb_false_r. destruct (String.eqb_spec r x) as [->|Hne].
  - apply get_set_same.
  - apply get_set_other. congruence.
Qed.

(** X4: the object that [getRelations] builds maps a name to [true]
    exactly when it is the property name of a declared relation, and holds
    nothing for any other name. *)
Theorem getRelations_lookup (repository : Repository) (r : string) :
  Js.get r (Query.getRelations repository)
  = if Js.arr_includes r (relations (metadata repository)) then Some true else None.
Proof. unfold Query.getRelations. now rewrite getRelations_fold. Qed.

(** ** Metadata helpers *)

Lemma find_first {A} (f : A -> bool) (l : list A) (x : A) :
  List.find f l = Some x ->
  exists before after,
    l = (before ++ x :: after)%list /\ f x = true
    /\ Forall (fun y => f y = false) before.
Proof.
  induction l as [|y l IH]; cbn [List.find]; [discriminate|].
  destruct (f y) eqn:Hy.
  - intros [= ->]. exists [], l. repeat split; [exact Hy | constructor].
  - intros H. destruct (IH H) as (before & after & -> & Hx & Hall).
    exists (y :: before), after. repeat split; [exact Hx | now constructor].
Qed.

(** X5: the two [getPrimaryKey] functions, of TypeOrm.ts and of the
    [Query] class, succeed on the same repositories with the same key: the
    property name of the first column flagged primary, which is not empty.
    Both throw, each with its own message, when no column is primary or
    that name is empty. *)
Theorem getPrimaryKey_agree (repository : Repository) :
  match TypeOrm.getPrimaryKey repository, Query.getPrimaryKey repository with
  | Ok pk, Ok pk' =>
      pk = pk' /\ pk <> ""
      /\ exists before column after,
          columns (metadata repository) = (before ++ column :: after)%list
          /\ column_propertyName column = pk /\ isPrimary column = true
          /\ Forall (fun c => isPrimary c = false) before
  | Throw e, Throw e' =>
      e = "Primary key not found" /\ e' = "no primary key was found"
      /\ (Forall (fun c => isPrimary c = false) (columns (metadata repository))
          \/ exists before column after,
              columns (metadata repository) = (before ++ column :: after)%list
              /\ column_propertyName column = "" /\ isPrimary column = true
              /\ Forall (fun c => isPrimary c = false) before)
  | _, _ => False
  end.
Proof.
  unfold TypeOrm.getPrimaryKey, Query.getPrimaryKey.
  destruct (List.find isPrimary (columns (metadata repository))) as [column|] eqn:Hfind.
  - destruct (find_first _ _ _ Hfind) as (before & after & Hcols & Hprim & Hbefore).
    destruct (String.eqb_spec (column_propertyName column) "") as [Hempty|Hname].
    + repeat split. right. exists before, column, after. auto.
    + repeat split; [exact Hname|]. exists before, column, after. auto.
  - repeat split. left. apply List.Forall_forall. intros c Hc.
    destruct (isPrimary c) eqn:Hp; [|reflexivity].
    now rewrite (find_none _ _ Hfind c Hc) in Hp.
Qed.

Lemma filter_twice {A} (f : A -> bool) (l : list A) :
  List.filter f (List.filter f l) = List.filter f l.
Proof.
  induction l as [|x l IH]; cbn [List.filter]; [reflexivity|].
  destruct (f x) eqn:Hx; [|exact IH]. cbn [List.filter]. now rewrite Hx, IH.
Qed.

Lemma filterOutInvalidSelectValues_settled (repository : Repository)
    (o o' : FindManyOptions) :
  TypeOrm.filterOutInvalidSelectValues repository o = Ok o' ->
  TypeOrm.filterOutInvalidSelectValues repository o' = Ok o'
  /\ where_ o' = where_ o /\ relations_opt o' = relations_opt o.
Proof.
  unfold TypeOrm.filterOutInvalidSelectValues.
  destruct (select o) as [[s|entries]|] eqn:Hsel.
  - destruct (String.eqb s "") eqn:Hs; [|discriminate].
    intros [= <-]. now rewrite Hsel, Hs.
  - intros [= <-]. cbn [select set_select where_ relations_opt].
    rewrite filter_twice. repeat split.
  - intros [= <-]. now rewrite Hsel.
Qed.

(** X6: both option wrappers are idempotent: options that came out of
    [findAllOptionsWrapper] (or of [findOneOptionsWrapper]) pass through
    the same wrapper unchanged. *)
Theorem options_wrappers_idempotent (repository : Repository)
    (options : option FindManyOptions) (wrapped : FindManyOptions) :
  (TypeOrm.findAllOptionsWrapper repository options = Ok wrapped ->
   TypeOrm.findAllOptionsWrapper repository (Some wrapped) = Ok wrapped)
  /\ (TypeOrm.findOneOptionsWrapper repository options = Ok wrapped ->
      TypeOrm.findOneOptionsWrapper repository (Some wrapped) = Ok wrapped).
Proof.
  split.
  - unfold TypeOrm.findAllOptionsWrapper.
    destruct (TypeOrm.handleEmptyOptions repository options) as [o1|e];
      cbn [res_bind]; [|discriminate].
    destruct (TypeOrm.handleEmptyWhere repository o1) as [o2|e] eqn:Hwhere;
      cbn [res_bind]; [|discriminate].
    intros Hfilter.
    destruct (filterOutInvalidSelectValues_settled _ _ _ Hfilter) as (Hagain & Hw & Hr).
    assert (Hw2 : exists w, where_ o2 = Some w).
    { unfold TypeOrm.handleEmptyWhere in Hwhere.
      destruct (where_ o1) as [w|] eqn:Hw1.
      - injection Hwhere as <-. eauto.
      - destruct (TypeOrm.getPrimaryKey repository); cbn in Hwhere; [|discriminate].
        injection Hwhere as <-. cbn. eauto. }
    destruct Hw2 as (w & Hw2).
    assert (Hr2 : exists r, relations_opt (TypeOrm.handleEmptyRelations repository o2)
                            = Some r).
    { unfold TypeOrm.handleEmptyRelations.
      destruct (relations_opt o2) as [r|] eqn:Hr2; [rewrite Hr2|cbn]; eauto. }
    destruct Hr2 as (r & Hr2).
    assert (Hw3 : where_ (TypeOrm.handleEmptyRelations repository o2) = Some w).
    { unfold TypeOrm.handleEmptyRelations.
      destruct (relations_opt o2); [exact Hw2 | exact Hw2]. }
    cbn [TypeOrm.handleEmptyOptions res_bind].
    unfold TypeOrm.handleEmptyWhere. rewrite Hw, Hw3. cbn [res_bind].
    unfold TypeOrm.handleEmptyRelations at 1. rewrite Hr, Hr2. exact Hagain.
  - unfold TypeOrm.findOneOptionsWrapper.
    destruct (TypeOrm.handleEmptyOptions repository options) as [o1|e];
      cbn [res_bind]; [|discriminate].
    intros Hfilter.
    destruct (filterOutInvalidSelectValues_settled _ _ _ Hfilter) as (Hagain & Hw & Hr).
    assert (Hr2 : exists r, relations_opt (TypeOrm.handleEmptyRelations repository o1)
                            = Some r).
    { unfold TypeOrm.handleEmptyRelations.
      destruct (relations_opt o1) as [r|] eqn:Hr1; [rewrite Hr1|cbn]; eauto. }
    destruct Hr2 as (r & Hr2).
    cbn [TypeOrm.handleEmptyOptions res_bind].
    unfold TypeOrm.handleEmptyRelations at 1. rewrite Hr, Hr2. exact Hagain.
Qed.

Lemma options_wrappers_idempotent_witness :
  TypeOrm.findAllOptionsWrapper books
    (Some {| take := None; skip := None; order := None;
             select := Some (SelArray [Js.Str "id"]);
             relations_opt := Some (RelArray ["author"]);
             where_ := Some (WhereOne [("id", WOp (MoreThan (Js.Num 0)))]) |})
  = Ok {| take := None; skip := None; order := None;
          select := Some (SelArray [Js.Str "id"]);
          relations_opt := Some (RelArray ["author"]);
          where_ := Some (WhereOne [("id", WOp (MoreThan (Js.Num 0)))]) |}.
Proof.
  exact (proj1 (options_wrappers_idempotent books
                  (Some (only_select ["id"; "bogus"])) _) eq_refl).
Defined.

(** X7: when [order_by] is given (and not empty) and select and
    relations are absent or non-empty strings, the method
    [Query.findOptions] and the free function [findOptions] return the
    same options, whatever the fallback column. *)
Theorem findOptions_agree_with_order_by (sel rel : option string)
    (limit offset : option Z) (order_by : string) (type : option string)
    (w : option Where) (fallback : string) :
  order_by <> "" -> sel <> Some "" -> rel <> Some "" ->
  Query.findOptions
    {| Query.q_select := option_map QString sel;
       Query.q_relations := option_map QString rel;
       Query.limit := limit; Query.offset := offset;
       Query.order_by := Some order_by; Query.order_by_type := type |}
    w (Some fallback)
  = TypeOrm.findOptions
      {| TypeOrm.q_select := sel; TypeOrm.q_relations := rel;
         TypeOrm.limit := limit; TypeOrm.offset := offset;
         TypeOrm.order_by := Some order_by; TypeOrm.order_by_type := type |}
      w fallback.
Proof.
  intros Horder Hsel Hrel.
  unfold Query.findOptions, TypeOrm.findOptions, Query.split_list,
    TypeOrm.split_if_truthy, Query.or_else.
  cbn [Query.q_select Query.q_relations Query.limit Query.offset Query.order_by
       Query.order_by_type TypeOrm.q_select TypeOrm.q_relations TypeOrm.limit
       TypeOrm.offset TypeOrm.order_by TypeOrm.order_by_type].
  destruct (String.eqb_spec order_by "") as [|_]; [contradiction|].
  destruct sel as [s|], rel as [r|]; cbn [option_map];
    repeat match goal with
           | |- context [String.eqb ?x ""] =>
               destruct (String.eqb_spec x "") as [->|_]; [congruence|]
           end; reflexivity.
Qed.

Lemma findOptions_agree_with_order_by_witness :
  Query.findOptions
    {| Query.q_select := Some (QString "id,title"); Query.q_relations := None;
       Query.limit := Some 5; Query.offset := None;
       Query.order_by := Some "title"; Query.order_by_type := None |}
    None (Some "created_at")
  = TypeOrm.findOptions
      {| TypeOrm.q_select := Some "id,title"; TypeOrm.q_relations := None;
         TypeOrm.limit := Some 5; TypeOrm.offset := None;
         TypeOrm.order_by := Some "title"; TypeOrm.order_by_type := None |}
      None "created_at".
Proof.
  apply (findOptions_agree_with_order_by (Some "id,title") None (Some 5) None
           "title" None None "created_at"); discriminate.
Defined.

(** ** Constraint names *)

Lemma append_assoc (a b c : string) : (a ++ b) ++ c = a ++ (b ++ c).
Proof.
  induction a as [|x a IH]; rewrite ?append_empty, ?append_cons;
    [reflexivity | now rewrite IH].
Qed.

Lemma fold_left_join (first : string) (rest : list string) :
  fold_left (fun name column => name ++ "_" ++ column) rest first
  = Js.join "_" (first :: rest).
Proof.
  revert first. induction rest as [|x rest IH]; intros first; [reflexivity|].
  cbn [fold_left]. rewrite IH. destruct rest as [|y rest].
  - reflexivity.
  - rewrite !join_cons_nonempty by discriminate. now rewrite !append_assoc.
Qed.

(** X8: the four name builders of the naming strategy return their prefix
    (fk, pk, idx, uq), the table name and the columns, all joined by
    underscores, for a non-empty list of columns; all four throw on an
    empty list of columns, because the [reduce] has no initial value. *)
Theorem constraint_names (tableOrName : string + CustomNamingStrategy.Table)
    (columns : list string) :
  let table := CustomNamingStrategy.table_name tableOrName in
  match columns with
  | [] =>
      forall name,
        In name [CustomNamingStrategy.foreignKeyName;
                 CustomNamingStrategy.primaryKeyName;
                 CustomNamingStrategy.indexName;
                 CustomNamingStrategy.uniqueConstraintName] ->
        name tableOrName columns = Throw "Reduce of empty array with no initial value"
  | _ :: _ =>
      CustomNamingStrategy.foreignKeyName tableOrName columns
      = Ok ("fk_" ++ table ++ "_" ++ Js.join "_" columns)
      /\ CustomNamingStrategy.primaryKeyName tableOrName columns
         = Ok ("pk_" ++ table ++ "_" ++ Js.join "_" columns)
      /\ CustomNamingStrategy.indexName tableOrName columns
         = Ok ("idx_" ++ table ++ "_" ++ Js.join "_" columns)
      /\ CustomNamingStrategy.uniqueConstraintName tableOrName columns
         = Ok ("uq_" ++ table ++ "_" ++ Js.join "_" columns)
  end.
Proof.
  intros table. destruct columns as [|first rest].
  - intros name [<-|[<-|[<-|[<-|[]]]]]; reflexivity.
  - unfold CustomNamingStrategy.foreignKeyName, CustomNamingStrategy.primaryKeyName,
      CustomNamingStrategy.indexName, CustomNamingStrategy.uniqueConstraintName,
      CustomNamingStrategy.build, CustomNamingStrategy.reduce_columns.
    cbn [res_bind]. rewrite fold_left_join. repeat split.
Qed.

(** ** The project root *)

Section ProjectRoot.

Variable existsSync : list string -> bool.

(** X9: [findProjectRoot] returns the nearest directory, from the start
    directory upwards, that holds both package.json and turbo.json; the
    file-system root itself is never examined, so the function throws when
    no directory below the root qualifies, even if the root does. *)
Theorem findProjectRoot_nearest (startPath : list string) :
  match Config.findProjectRoot existsSync startPath with
  | Ok projectRoot =>
      projectRoot <> []
      /\ Config.has_markers existsSync projectRoot = true
      /\ exists below,
          startPath = (below ++ projectRoot)%list
          /\ forall inner outer,
              below = (inner ++ outer)%list -> outer <> [] ->
              Config.has_markers existsSync (outer ++ projectRoot)%list = false
  | Throw e =>
      e = "Could not find project root"
      /\ forall below directory,
          startPath = (below ++ directory)%list -> directory <> [] ->
          Config.has_markers existsSync directory = false
  end.
Proof.
  induction startPath as [|segment parent IH]; cbn [Config.findProjectRoot].
  - split; [reflexivity|]. intros below directory H Hne.
    destruct below, directory; try discriminate. contradiction.
  - destruct (Config.has_markers existsSync (segment :: parent)) eqn:Hhere.
    + split; [discriminate|]. split; [exact Hhere|].
      exists []. split; [reflexivity|]. intros inner outer H Hne.
      destruct inner, outer; try discriminate. contradiction.
    + destruct (Config.findProjectRoot existsSync parent) as [root|e].
      * destruct IH as (Hroot & Hmark & below & -> & Hnear).
        split; [exact Hroot|]. split; [exact Hmark|].
        exists (segment :: below). split; [reflexivity|].
        intros inner outer H Hne. destruct inner as [|x inner].
        -- cbn in H. subst outer. exact Hhere.
        -- injection H as _ H. eapply Hnear; eauto.
      * destruct IH as (-> & Hnone). split; [reflexivity|].
        intros below directory H Hne. destruct below as [|x below].
        -- cbn in H. subst directory. exact Hhere.
        -- injection H as _ H. eapply Hnone; eauto.
Qed.

Lemma findProjectRoot_message (startPath : list string) (e : string) :
  Config.findProjectRoot existsSync startPath = Throw e ->
  e = "Could not find project root".
Proof.
  induction startPath as [|segment parent IH]; cbn [Config.findProjectRoot].
  - now intros [= <-].
  - destruct (Config.has_markers existsSync (segment :: parent));
      [discriminate | exact IH].
Qed.

(** X10: [buildTypeOrmConfig] throws "DATABASE_URL is not defined"
    exactly when the URL argument is the empty string, or the argument is
    omitted and the environment variable is unset or empty; an empty
    argument is not replaced by the environment variable.  When it
    returns, the URL of the configuration is the argument, or the
    variable when the argument is omitted, and schema synchronisation and
    automatic migrations are off. *)
Theorem buildTypeOrmConfig_url (DATABASE_URL : option string) (filename_is_ts : bool)
    (dirname_ : list string) (IsProd : bool) (databaseUrl : option string)
    (useTs : option bool) :
  let run :=
    Config.buildTypeOrmConfig existsSync DATABASE_URL filename_is_ts dirname_ IsProd
      databaseUrl useTs in
  (run = Throw "DATABASE_URL is not defined" <->
   databaseUrl = Some ""
   \/ (databaseUrl = None /\ (DATABASE_URL = None \/ DATABASE_URL = Some "")))
  /\ forall config,
      run = Ok config ->
      Some (Config.url config)
      = match databaseUrl with Some u => Some u | None => DATABASE_URL end
      /\ Config.url config <> ""
      /\ Config.synchronize config = false
      /\ Config.migrationsRun config = false.
Proof.
  intros run. subst run. unfold Config.buildTypeOrmConfig.
  pose proof (findProjectRoot_message dirname_) as Hroot.
  destruct databaseUrl as [u|]; [|destruct DATABASE_URL as [u|]].
  - destruct (String.eqb_spec u "") as [->|Hu].
    + split; [split; auto|]. discriminate.
    + destruct (Config.findProjectRoot existsSync dirname_) as [root|e];
        cbn [res_bind].
      * split; [split; [discriminate | intros [[= ?]|[[= ] _]]; contradiction]|].
        intros config [= <-]. cbn. auto.
      * rewrite (Hroot e eq_refl).
        split; [split; [discriminate | intros [[= ?]|[[= ] _]]; contradiction]|].
        discriminate.
  - destruct (String.eqb_spec u "") as [->|Hu].
    + split; [split; auto|]. discriminate.
    + destruct (Config.findProjectRoot existsSync dirname_) as [root|e];
        cbn [res_bind].
      * split; [split; [discriminate
                       | intros [[= ]|[_ [[= ]|[= ?]]]]; contradiction]|].
        intros config [= <-]. cbn. auto.
      * rewrite (Hroot e eq_refl).
        split; [split; [discriminate
                       | intros [[= ]|[_ [[= ]|[= ?]]]]; contradiction]|].
        discriminate.
  - split; [split; auto|]. discriminate.
Qed.

End ProjectRoot.

(** ** Unique key fields *)

Lemma compact_In (l : list (option string)) (c : string) :
  In c (compact l) <-> c <> "" /\ In (Some c) l.
Proof.
  induction l as [|[s|] l IH]; cbn [compact In].
  - tauto.
  - destruct (String.eqb_spec s "") as [->|Hs].
    + rewrite IH. split.
      * intros [Hc Hin]. auto.
      * intros [Hc [[= <-]|Hin]]; [contradiction | auto].
    + cbn [In]. rewrite IH. split.
      * intros [<-|[Hc Hin]]; auto.
      * intros [Hc [[= <-]|Hin]]; auto.
  - rewrite IH. split.
    + intros [Hc Hin]. auto.
    + intros [Hc [Hin|Hin]]; [discriminate | auto].
Qed.

(** X11: [getUniqueKeyFields] returns the column names of the first
    index when that index has any, whatever the other indices and the
    unique constraints are; otherwise it returns, for each unique
    constraint given as an array, its first column only, leaving out empty
    names. *)
Theorem getUniqueKeyFields_sources (indices : list IndexMetadata)
    (uniques : list UniqueMetadata) :
  let first_index :=
    match indices with
    | {| columnNamesWithOrderingMap := Some map |} :: _ => Js.keys map
    | _ => []
    end in
  match first_index with
  | _ :: _ => getUniqueKeyFields indices uniques = first_index
  | [] =>
      forall c,
        In c (getUniqueKeyFields indices uniques) <->
        c <> "" /\ exists unique rest,
                     In unique uniques /\ givenColumnNames unique = Some (c :: rest)
  end.
Proof.
  intros first_index. unfold getUniqueKeyFields.
  assert (Hsame :
            match indices with
            | first :: _ =>
                match columnNamesWithOrderingMap first with
                | Some map => Js.keys map
                | None => []
                end
            | [] => []
            end = first_index).
  { subst first_index. destruct indices as [|[[map|]] rest]; reflexivity. }
  rewrite Hsame. destruct first_index as [|k ks]; [|reflexivity].
  intros c. rewrite compact_In, in_map_iff. split.
  - intros [Hc (unique & Hfirst & Hin)]. split; [exact Hc|].
    unfold first_given in Hfirst.
    destruct (givenColumnNames unique) as [[|c' rest]|] eqn:Hgiven; try discriminate.
    injection Hfirst as ->. eauto.
  - intros [Hc (unique & rest & Hin & Hgiven)]. split; [exact Hc|].
    exists unique. split; [|exact Hin]. unfold first_given. now rewrite Hgiven.
Qed.

(** ** Single-record operations *)

Section SingleRecord.

Context {DB : Type} {backend : Backend DB}.

(** What [findOneById] sends to the repository. *)
Lemma findOneById_run (repository : Repository) (id : Js.Prim)
    (relations : option (list string)) (db : DB) :
  Query.findOneById repository id relations db
  = match Query.getPrimaryKey repository with
    | Ok pk =>
        repository_findOne repository (by_id_options repository pk id relations) db
    | Throw e => (Throw e, db)
    end.
Proof.
  unfold Query.findOneById, bind, lift_res.
  destruct (Query.getPrimaryKey repository) as [pk|e]; reflexivity.
Qed.

(** X12: [findOneById] asks the repository for the row whose primary key
    equals the id, with the relations that were asked for or, when none
    were, all declared relations: the option wrapper adds nothing to that
    query, and an empty list of relations is the same as no list.  Without
    a primary key it throws before reaching the repository. *)
Theorem findOneById_query (repository : Repository) (id : Js.Prim)
    (relations : option (list string)) (db : DB) :
  match Query.getPrimaryKey repository with
  | Ok pk =>
      Query.findOneById repository id relations db
      = repository_findOne repository (by_id_options repository pk id relations) db
  | Throw e => Query.findOneById repository id relations db = (Throw e, db)
  end
  /\ Query.findOneById repository id (Some []) db
     = Query.findOneById repository id None db.
Proof.
  rewrite !findOneById_run.
  destruct (Query.getPrimaryKey repository) as [pk|e]; repeat split.
Qed.

(** X13: [update] treats a primary-key value of 0 or of the empty string
    like a missing one: the call throws "Primary key ... missing" and the
    database is as it was. *)
Theorem update_rejects_falsy_key (repository : Repository) (payload : Entity)
    (relations : list string) (pk : string) (db : DB) :
  Query.getPrimaryKey repository = Ok pk ->
  Js.truthy (field payload pk) = false ->
  Query.update repository payload relations db
  = (Throw ("Primary key " ++ pk ++ " missing from update to "
            ++ tableName (metadata repository)), db).
Proof.
  intros Hpk Hfalsy. unfold Query.update, Query.getRecordId, bind, lift_res, throw.
  rewrite Hpk. cbn [res_bind]. rewrite Hfalsy. reflexivity.
Qed.

(** X14: with a primary-key value in the payload, [update] saves the
    payload and returns the record it then fetches by that key, not the
    payload; when the fetch finds nothing it throws "Updated record ...
    not found", after the save has been done. *)
Theorem update_returns_fetched_record (repository : Repository) (payload : Entity)
    (relations : list string) (pk : string) (saved : Entity)
    (found : option Entity) (db db1 db2 : DB) :
  Query.getPrimaryKey repository = Ok pk ->
  Js.truthy (field payload pk) = true ->
  repository_save repository payload db = (Ok saved, db1) ->
  repository_findOne repository
    (by_id_options repository pk (field payload pk) (Some relations)) db1
  = (Ok found, db2) ->
  Query.update repository payload relations db
  = (match found with
     | Some record => Ok record
     | None =>
         Throw ("Updated record " ++ tableName (metadata repository) ++ " with id "
                ++ Js.to_string (field payload pk) ++ " not found")
     end, db2).
Proof.
  intros Hpk Htruthy Hsave Hfind.
  pose proof (findOneById_run repository (field payload pk) (Some relations) db1)
    as Hbyid. rewrite Hpk, Hfind in Hbyid.
  unfold Query.update, Query.getRecordId. unfold bind at 1, lift_res at 1.
  rewrite Hpk. cbn [res_bind]. rewrite Htruthy. cbn [negb].
  unfold try_catch, bind. rewrite Hsave, Hbyid.
  destruct found; reflexivity.
Qed.


End SingleRecord.

Lemma update_rejects_falsy_key_witness :
  Query.update (backend := MemoryDb.backend) books (book 0 "Emma") [] library
  = (Throw "Primary key id missing from update to books", library).
Proof.
  exact (update_rejects_falsy_key (backend := MemoryDb.backend) books (book 0 "Emma")
           [] "id" library eq_refl eq_refl).
Defined.

Lemma update_returns_fetched_record_witness :
  fst (Query.update (backend := MemoryDb.backend) books (book 7 "Persuasion") []
         library)
  = Ok (book 7 "Persuasion").
Proof.
  rewrite (update_returns_fetched_record (backend := MemoryDb.backend) books
             (book 7 "Persuasion") [] "id" (book 7 "Persuasion")
             (Some (book 7 "Persuasion")) library
             {[ "books" := [book 7 "Persuasion"] ]}
             {[ "books" := [book 7 "Persuasion"] ]}
             eq_refl eq_refl);
    [reflexivity | vm_compute; reflexivity | vm_compute; reflexivity].
Defined.


(** ** More on bulk import *)

Section BulkFlow.

Context {DB : Type} {backend : Backend DB}.

(** X16: in REPOPULATE mode, once the table has been copied and emptied,
    the import itself cannot fail: failing rows are counted and their
    messages recorded like in CREATE mode, every row is processed, and
    when the copy is then dropped the call returns that result. *)
Theorem repopulate_counts_row_failures (repository : Repository)
    (data : list Entity) (dedup : option string) (db db1 db2 : DB) :
  Query.copyTable repository None db = (Ok tt, db1) ->
  Query.truncate repository db1 = (Ok tt, db2) ->
  exists result db3,
    Query.createBulkRecords repository data db2 = (Ok result, db3)
    /\ total result = Z.of_nat (List.length data)
    /\ processed result = total result
    /\ errors_list result = thrown (bulk_outcomes repository data CREATE dedup db2)
    /\ errored result = Z.of_nat (List.length (errors_list result))
    /\ forall db4,
        Query.dropTable repository (tableName (metadata repository) ++ "_COPY") db3
        = (Ok tt, db4) ->
        Query.bulk repository data REPOPULATE dedup db = (Ok result, db4).
Proof.
  intros Hcopy Htruncate.
  destruct (bulk_function_run repository data CREATE dedup db2)
    as (Hrun & Ht & Hp & He & Hl).
  cbn [guarded_row] in Hrun. eexists. eexists. split; [exact Hrun|].
  cbn [guarded_row] in Ht, Hp, He, Hl.
  split; [exact Ht|]. split; [congruence|]. split; [exact Hl|].
  split; [now rewrite Hl|].
  intros db4 Hdrop. unfold Query.bulk, Query.repopulate, bind at 1 2 3.
  rewrite Hcopy, Htruncate. unfold Query.createBulkRecords. rewrite Hrun.
  unfold bind, try_catch, ret. rewrite Hdrop. reflexivity.
Qed.

(** X17: in REPOPULATE mode an error while the table is copied or while
    it is emptied ends the call with that error before any row is
    created; nothing is restored, so a copy made before a failed delete
    stays behind. *)
Theorem repopulate_snapshot_errors_are_fatal (repository : Repository)
    (data : list Entity) (dedup : option string) (e : string) (db db1 db2 : DB) :
  (Query.copyTable repository None db = (Throw e, db1) ->
   Query.bulk repository data REPOPULATE dedup db = (Throw e, db1))
  /\ (Query.copyTable repository None db = (Ok tt, db1) ->
      Query.truncate repository db1 = (Throw e, db2) ->
      Query.bulk repository data REPOPULATE dedup db = (Throw e, db2)).
Proof.
  split.
  - intros Hcopy. unfold Query.bulk, Query.repopulate, bind. now rewrite Hcopy.
  - intros Hcopy Htruncate. unfold Query.bulk, Query.repopulate, bind.
    now rewrite Hcopy, Htruncate.
Qed.

(** X18: in REPOPULATE mode, when the rows have been imported and
    dropping the copy then fails, the table is restored from the copy and
    the call still returns the counters of the import; only an error of
    the restore itself ends the call with an error. *)
Theorem repopulate_restores_when_drop_fails (repository : Repository)
    (data : list Entity) (dedup : option string) (result : BulkUploadResponse)
    (e : string) (restored : Res unit) (db db1 db2 db3 db4 db5 : DB) :
  Query.copyTable repository None db = (Ok tt, db1) ->
  Query.truncate repository db1 = (Ok tt, db2) ->
  Query.createBulkRecords repository data db2 = (Ok result, db3) ->
  Query.dropTable repository (tableName (metadata repository) ++ "_COPY") db3
  = (Throw e, db4) ->
  Query.restoreTable repository None db4 = (restored, db5) ->
  Query.bulk repository data REPOPULATE dedup db
  = (match restored with
     | Ok _ => Ok result
     | Throw e' => Throw e'
     end, db5).
Proof.
  intros Hcopy Htruncate Hcreate Hdrop Hrestore.
  unfold Query.bulk, Query.repopulate, bind at 1 2 3.
  rewrite Hcopy, Htruncate, Hcreate. unfold bind, try_catch, ret.
  rewrite Hdrop, Hrestore. destruct restored; reflexivity.
Qed.

(** X19: over an empty list of rows, CREATE, and UPSERT and DELETE with a
    dedup field, return a result with every counter at zero and do not
    reach the repository. *)
Theorem bulk_of_no_rows (repository : Repository) (mode : ImportMode)
    (dedup : option string) (db : DB) :
  mode = CREATE \/ ((mode = UPSERT \/ mode = DELETE) /\ Query.missing dedup = false) ->
  Query.bulk repository [] mode dedup db
  = (Ok (empty_result (match mode with DELETE => None | _ => Some [] end)), db).
Proof.
  intros Hmode. rewrite bulk_supported_mode by exact Hmode.
  destruct mode; reflexivity.
Qed.

(** A property of the accumulator that every turn of a loop keeps holds
    when the loop ends. *)
Lemma bulk_loop_invariant (P : BulkUploadResponse -> Prop)
    (body : Entity -> M (BulkUploadResponse * DB) unit) (data : list Entity) :
  (forall record s, P (fst s) -> P (fst (snd (Query.bulk_row (body record) s)))) ->
  forall s,
    P (fst s) ->
    P (fst (snd (for_of data (fun record => Query.bulk_row (body record)) s))).
Proof.
  intros Hstep. induction data as [|record rest IH]; intros s Hs; [exact Hs|].
  rewrite bulk_loop_cons. apply IH, Hstep, Hs.
Qed.

Ltac run_row :=
  repeat match goal with
         | |- context [repository_save ?r ?d ?db] =>
             destruct (repository_save r d db) as [[?|?] ?]
         | |- context [repository_findOne ?r ?o ?db] =>
             destruct (repository_findOne r o db) as [[[?|]|?] ?]
         | |- context [repository_remove ?r ?d ?db] =>
             destruct (repository_remove r d db) as [[?|?] ?]
         | |- context [insert_orUpdate_execute ?r ?t ?v ?f ?c ?db] =>
             destruct (insert_orUpdate_execute r t v f c db) as [[[[|? ?]]|?] ?]
         | |- context [Query.getPrimaryKey ?r] =>
             destruct (Query.getPrimaryKey r)
         end;
  cbn.

Lemma create_row_invariant (repository : Repository) (record : Entity)
    (s : BulkUploadResponse * DB) :
  let P r :=
    Z.of_nat (List.length (ids r)) = created r /\ updated r = 0 /\ deleted r = 0
    /\ created r + errored r = processed r in
  P (fst s) ->
  P (fst (snd (Query.bulk_row (Query.create_row repository record) s))).
Proof.
  intros P (Hids & Hu & Hd & Hsum). rewrite bulk_row_run. subst P.
  unfold Query.create_row, bind, Query.lift_db, Query.create, try_catch, bind, ret,
    throw, lift_res, Query.modify_result.
  cbn [fst snd]. run_row; rewrite ?length_app; cbn; repeat split; lia.
Qed.

Lemma upsert_row_invariant (repository : Repository) (f : string) (record : Entity)
    (s : BulkUploadResponse * DB) :
  let P r :=
    deleted r = 0
    /\ Z.of_nat (List.length (ids r)) = processed r - errored r
    /\ processed r - errored r <= created r + updated r <= processed r in
  P (fst s) ->
  P (fst (snd (Query.bulk_row (Query.upsert_row repository f record) s))).
Proof.
  intros P (Hd & Hids & Hsum). rewrite bulk_row_run. subst P.
  unfold Query.upsert_row, bind, Query.lift_db, Query.findOne, Query.upsert, bind,
    ret, throw, lift_res, Query.modify_result.
  cbn [fst snd TypeOrm.findOneOptionsWrapper TypeOrm.handleEmptyOptions res_bind].
  cbn. run_row; rewrite ?length_app; cbn; repeat split; lia.
Qed.

(** X20: in CREATE mode the result lists one id per created row and
    nothing else: the length of [ids] equals [created], [updated] and
    [deleted] are 0, and [created] plus [errored] is [total]. *)
Theorem create_bulk_ids (repository : Repository) (data : list Entity)
    (dedup : option string) (db : DB) :
  exists result db',
    Query.bulk repository data CREATE dedup db = (Ok result, db')
    /\ Z.of_nat (List.length (ids result)) = created result
    /\ updated result = 0 /\ deleted result = 0
    /\ created result + errored result = total result.
Proof.
  rewrite (bulk_supported_mode repository data CREATE dedup db (or_introl eq_refl)).
  destruct (bulk_function_run repository data CREATE dedup db)
    as (Hrun & Ht & Hp & _).
  rewrite Hrun. eexists. eexists. split; [reflexivity|].
  rewrite Ht, <- Hp. cbn [guarded_row].
  apply (bulk_loop_invariant _ _ data (create_row_invariant repository)).
  cbn. repeat split.
Qed.

(** X21: in UPSERT mode with a dedup field the result lists one id per
    row that did not fail, [deleted] is 0, and [created] plus [updated]
    lies between the number of rows that did not fail and [total]: a row
    is counted as created or updated before its id is read, so a row that
    fails there is counted twice. *)
Theorem upsert_bulk_counts (repository : Repository) (data : list Entity)
    (dedup : option string) (db : DB) :
  Query.missing dedup = false ->
  exists result db',
    Query.bulk repository data UPSERT dedup db = (Ok result, db')
    /\ deleted result = 0
    /\ Z.of_nat (List.length (ids result)) = total result - errored result
    /\ total result - errored result <= created result + updated result
       <= total result.
Proof.
  intros Hdedup.
  rewrite (bulk_supported_mode repository data UPSERT dedup db
             (or_intror (conj (or_introl eq_refl) Hdedup))).
  destruct (bulk_function_run repository data UPSERT dedup db)
    as (Hrun & Ht & Hp & _).
  rewrite Hrun. eexists. eexists. split; [reflexivity|].
  rewrite Ht, <- Hp. cbn [guarded_row].
  apply (bulk_loop_invariant _ _ data (upsert_row_invariant repository _)).
  cbn. repeat split; lia.
Qed.

(** One turn of the deletion loop, by what became of the row. *)
Lemma delete_row_run (repository : Repository) (f : string) (record : Entity)
    (r : BulkUploadResponse) (db : DB) :
  Query.bulk_row (Query.delete_row repository f record) (r, db)
  = (Ok tt,
     (Query.incr_processed
        match fst (delete_outcome repository f record db) with
        | NotFound => r
        | Purged => Query.incr_deleted r
        | Failed message => Query.record_error message r
        end,
      snd (delete_outcome repository f record db))).
Proof.
  rewrite bulk_row_run.
  unfold delete_outcome, Query.delete_row, Query.findOne, Query.purge, bind,
    Query.lift_db, lift_res, ret, Query.modify_result.
  cbn [fst snd].
  destruct (TypeOrm.findOneOptionsWrapper repository _) as [options|e];
    [|reflexivity].
  destruct (repository_findOne repository options db) as [[[found|]|e] db1];
    cbn [fst snd]; try reflexivity.
  destruct (repository_remove repository found db1) as [[u|e] db2]; reflexivity.
Qed.

Lemma delete_loop_run (repository : Repository) (f : string) (data : list Entity) :
  forall (r : BulkUploadResponse) (db : DB),
    let run :=
      for_of data
        (fun record => Query.bulk_row (Query.delete_row repository f record)) (r, db) in
    let observed := delete_outcomes repository f data db in
    snd (snd run) = snd observed
    /\ created (fst (snd run)) = created r
    /\ updated (fst (snd run)) = updated r
    /\ ids (fst (snd run)) = ids r
    /\ deleted (fst (snd run))
       = deleted r + Z.of_nat (List.length (List.filter is_purged (fst observed)))
    /\ errored (fst (snd run))
       = errored r + Z.of_nat (List.length (failures (fst observed)))
    /\ errors (fst (snd run))
       = match failures (fst observed) with
         | [] => errors r
         | messages => Some (errors_list r ++ messages)%list
         end.
Proof.
  induction data as [|record rest IH]; intros r db.
  - cbn. repeat split; lia.
  - cbv zeta. rewrite bulk_loop_cons, delete_row_run. cbn [snd delete_outcomes fst].
    match goal with |- context [for_of rest _ (?r1, ?db1)] =>
      destruct (IH r1 db1) as (Hdb & Hc & Hu & Hi & Hd & He & Hl) end.
    rewrite Hdb, Hc, Hu, Hi, Hd, He, Hl. clear Hdb Hc Hu Hi Hd He Hl IH.
    destruct (delete_outcome repository f record db) as [[| |message] db1];
      cbn [fst snd List.filter is_purged failures flat_map app List.length
           Query.incr_processed Query.incr_deleted Query.record_error
           created updated ids deleted errored errors errors_list];
      repeat split; try lia.
    + unfold failures. lia.
    + unfold errors_list, failures.
      destruct (flat_map _ _) as [|m ms]; destruct (errors r);
        cbn [app]; rewrite <- ?app_assoc; reflexivity.
Qed.

(** X22: in DELETE mode with a dedup field the call returns, and the
    result says what became of the rows, each looked up by its dedup field
    in the database that the rows before it left and purged when found:
    [deleted] is the number of rows that were found and purged, [errored]
    the number of rows whose lookup or purge failed, [errors] their
    messages in order (absent when no row failed), and rows without a match
    are neither.  Every row is processed, nothing is created or updated, no
    id is listed, and the database is left as the purges left it. *)
Theorem delete_bulk_counts (repository : Repository) (data : list Entity)
    (dedup : option string) (db : DB) :
  Query.missing dedup = false ->
  exists f result db',
    dedup = Some f
    /\ Query.bulk repository data DELETE dedup db = (Ok result, db')
    /\ db' = snd (delete_outcomes repository f data db)
    /\ total result = Z.of_nat (List.length data)
    /\ processed result = total result
    /\ created result = 0 /\ updated result = 0 /\ ids result = []
    /\ deleted result
       = Z.of_nat (List.length
                     (List.filter is_purged (fst (delete_outcomes repository f data db))))
    /\ errored result
       = Z.of_nat (List.length
                     (failures (fst (delete_outcomes repository f data db))))
    /\ errors result
       = match failures (fst (delete_outcomes repository f data db)) with
         | [] => None
         | messages => Some messages
         end
    /\ 0 <= deleted result
    /\ deleted result + errored result <= total result.
Proof.
  intros Hdedup.
  rewrite (bulk_supported_mode repository data DELETE dedup db
             (or_intror (conj (or_intror eq_refl) Hdedup))).
  destruct (bulk_function_run repository data DELETE dedup db)
    as (Hrun & Ht & Hp & _).
  rewrite Hrun. destruct dedup as [f|]; [|discriminate].
  exists f. eexists. eexists. split; [reflexivity|]. split; [reflexivity|].
  cbn [guarded_row] in *.
  destruct (delete_loop_run repository f data (Query.initial_result data None) db)
    as (Hdb & Hc & Hu & Hi & Hd & He & Hl).
  cbn [Query.initial_result created updated ids deleted errored errors] in *.
  rewrite Hdb, Ht, Hp, Hc, Hu, Hi, Hd, He, Hl.
  assert (Hcount : forall outcomes : list DeleteOutcome,
             (List.length (List.filter is_purged outcomes)
              + List.length (failures outcomes) <= List.length outcomes)%nat).
  { unfold failures.
    induction outcomes as [|[| |message] outcomes IHo]; cbn; lia. }
  assert (Hlen : forall rows db0,
             List.length (fst (delete_outcomes repository f rows db0))
             = List.length rows).
  { induction rows as [|row rows IHr]; intros db0; cbn; [reflexivity|].
    now rewrite IHr. }
  specialize (Hcount (fst (delete_outcomes repository f data db))).
  rewrite Hlen in Hcount.
  repeat split; lia.
Qed.

End BulkFlow.

Lemma repopulate_snapshot_errors_are_fatal_witness :
  Query.bulk (backend := MemoryDb.backend) books [book 1 "Ulysses"] REPOPULATE None ∅
  = (Throw "Table 'books' doesn't exist", ∅).
Proof.
  exact (proj1 (repopulate_snapshot_errors_are_fatal (backend := MemoryDb.backend)
                  books [book 1 "Ulysses"] None _ ∅ ∅ ∅) eq_refl).
Defined.

Lemma repopulate_restores_when_drop_fails_witness :
  Query.bulk (backend := ScriptedDb.backend ScriptedDb.drop_fails_after_delete)
    books [book 1 "Ulysses"] REPOPULATE None []
  = (Ok {| total := 1; processed := 1; created := 1; updated := 0; deleted := 0;
           errored := 0; errors := Some []; ids := [Js.Num 1] |},
     [DropTableIfExists "books_COPY";
      CreateTableLike "books_COPY" "books";
      InsertIntoSelectAllFrom "books_COPY" "books";
      DeleteFrom "books"; AlterTableAutoIncrement "books" 1;
      RenameTable [("books", "books_DELETE"); ("books_COPY", "books")];
      DropTableIfExists "books_DELETE"]).
Proof.
  refine (repopulate_restores_when_drop_fails
            (backend := ScriptedDb.backend ScriptedDb.drop_fails_after_delete)
            books [book 1 "Ulysses"] None _ _ (Ok tt) [] _ _ _ _ _ _ _ _ _ _);
    vm_compute; reflexivity.
Defined.

Lemma repopulate_counts_row_failures_witness :
  exists result db3,
    Query.createBulkRecords (backend := MemoryDb.backend) books
      [book 1 "Ulysses"; untitled 2] {[ "books" := []; "books_COPY" := [book 7 "Emma"] ]}
    = (Ok result, db3)
    /\ processed result = total result.
Proof.
  destruct (repopulate_counts_row_failures (backend := MemoryDb.backend) books
              [book 1 "Ulysses"; untitled 2] None library
              {[ "books" := [book 7 "Emma"]; "books_COPY" := [book 7 "Emma"] ]}
              {[ "books" := []; "books_COPY" := [book 7 "Emma"] ]})
    as (result & db3 & Hrun & _ & Hp & _).
  - vm_compute. reflexivity.
  - vm_compute. reflexivity.
  - exists result, db3. split; assumption.
Defined.

Lemma bulk_of_no_rows_witness :
  Query.bulk (backend := MemoryDb.backend) books [] DELETE (Some "id") library
  = (Ok (empty_result None), library).
Proof.
  exact (bulk_of_no_rows (backend := MemoryDb.backend) books DELETE (Some "id") library
           (or_intror (conj (or_intror eq_refl) eq_refl))).
Defined.

Lemma upsert_bulk_counts_witness :
  exists result db',
    Query.bulk (backend := MemoryDb.backend) books
      [book 7 "Emma"; book 9 "Ulysses"; untitled 3] UPSERT (Some "id") library
    = (Ok result, db')
    /\ Z.of_nat (List.length (ids result)) = total result - errored result.
Proof.
  destruct (upsert_bulk_counts (backend := MemoryDb.backend) books
              [book 7 "Emma"; book 9 "Ulysses"; untitled 3] (Some "id") library eq_refl)
    as (result & db' & Hrun & _ & Hids & _).
  exists result, db'. split; assumption.
Defined.

Lemma delete_bulk_counts_witness :
  exists result db',
    Query.bulk (backend := MemoryDb.backend) books
      [book 7 "Emma"; book 9 "Ulysses"; untitled 3] DELETE (Some "id") library
    = (Ok result, db')
    /\ deleted result = 1 /\ errored result = 0 /\ errors result = None.
Proof.
  destruct (delete_bulk_counts (backend := MemoryDb.backend) books
              [book 7 "Emma"; book 9 "Ulysses"; untitled 3] (Some "id") library eq_refl)
    as (f & result & db' & Hf & Hrun & _ & _ & _ & _ & _ & _ & Hd & He & Hl & _).
  injection Hf as <-. exists result, db'. split; [exact Hrun|].
  vm_compute in Hd, He, Hl. split; [exact Hd|]. split; [exact He | exact Hl].
Defined.

(** ** More on the filter builder *)

Section BuilderInvariants.

Variable E : Js.Obj string.

Lemma keys_set {V} (k k' : string) (v : V) (o : Js.Obj V) :
  In k (Js.keys (Js.set k' v o)) -> k = k' \/ In k (Js.keys o).
Proof.
  induction o as [|[k0 v0] o IH]; cbn.
  - intros [<-|[]]. now left.
  - destruct (String.eqb k0 k'); cbn; intros [<-|H]; auto.
    destruct (IH H); auto.
Qed.

(** An entry writes nothing, or writes the declared property that its key
    starts with. *)
Lemma whereBase_step_declared (repository : Repository)
    (whereBase after : FindOptionsWhere) (key : string) (value : QueryValue) :
  Query.whereBase_step E repository whereBase (key, value) = Ok after ->
  after = whereBase
  \/ (Query.declared repository (top_key key) = true
      /\ exists v, after = Js.set (top_key key) v whereBase).
Proof.
  intros Hstep.
  assert (Hk : (if Js.includes "." key then nth 0 (Js.split "." key) "" else key)
               = top_key key).
  { destruct (Js.includes "." key) eqn:Hdot; [reflexivity|].
    now rewrite top_key_plain. }
  pose proof Hstep as Hguard. unfold Query.whereBase_step in Hguard.
  rewrite Hk in Hguard.
  destruct (Query.declared repository (top_key key)).
  - destruct (whereBase_step_writes E _ _ _ _ _ Hstep) as [->|Hset]; [now left|].
    right. split; [reflexivity | exact Hset].
  - injection Hguard as <-. now left.
Qed.

Lemma whereBase_loop_declared (repository : Repository)
    (entries : list (string * QueryValue)) :
  forall whereBase final,
    Query.whereBase_loop E repository entries whereBase = Ok final ->
    forall k,
      In k (Js.keys final) ->
      In k (Js.keys whereBase)
      \/ (Query.declared repository k = true
          /\ exists entry, In entry entries /\ top_key (fst entry) = k).
Proof.
  induction entries as [|[key value] rest IH]; intros whereBase final;
    cbn [Query.whereBase_loop].
  - intros [= <-] k Hk. now left.
  - destruct (Query.whereBase_step E repository whereBase (key, value))
      as [next|e] eqn:Hstep; cbn [res_bind]; [|discriminate].
    intros Hrest k Hk.
    destruct (IH _ _ Hrest k Hk) as [Hnext|(Hdecl & entry & Hin & Htop)].
    + destruct (whereBase_step_declared _ _ _ _ _ Hstep)
        as [->|(Hdecl & v & ->)]; [now left|].
      destruct (keys_set _ _ _ _ Hnext) as [->|Hold]; [|now left].
      right. split; [exact Hdecl|]. exists (key, value). split; [now left | reflexivity].
    + right. split; [exact Hdecl|]. exists entry. split; [now right | exact Htop].
Qed.

(** X23: without search fields, every property of the where clause that
    [buildWhere] returns is the property name of a declared column or
    relation, and is the first segment of the key of some entry of the
    query: entries under other keys never reach the clause. *)
Theorem buildWhere_only_declared (repository : Repository)
    (query : Js.Obj QueryValue) (whereBase : FindOptionsWhere) :
  Query.buildWhere E repository (Some query) None = Ok (WhereOne whereBase) ->
  forall k,
    In k (Js.keys whereBase) ->
    Query.declared repository k = true
    /\ exists entry, In entry query /\ top_key (fst entry) = k.
Proof.
  unfold Query.buildWhere.
  destruct (Query.whereBase_loop E repository query []) as [final|e] eqn:Hloop;
    cbn [res_bind]; [|discriminate].
  intros [= <-] k Hk.
  destruct (whereBase_loop_declared _ _ _ _ Hloop k Hk) as [[]|H]. exact H.
Qed.

Lemma nest_shape (keys : list string) (value : WhereValue) :
  plain_path keys = true -> keys <> [] ->
  exists inner,
    Query.nest keys value = [(nth 0 keys "", inner)]
    /\ path_get (tl keys) inner = Some value.
Proof.
  intros Hplain Hne. destruct keys as [|key rest]; [contradiction|].
  cbn [plain_path forallb] in Hplain. apply andb_prop in Hplain as [Hkey Hrest].
  apply negb_true_iff in Hkey.
  destruct rest as [|next rest]; cbn [Query.nest]; rewrite Hkey.
  - exists value. split; reflexivity.
  - exists (WObj (Query.nest (next :: rest) value)). split; [reflexivity|].
    apply nest_path; [exact Hrest | discriminate].
Qed.

Lemma nest_own_shape (keys : list string) (value : WhereValue) :
  plain_path keys = false ->
  match own_path keys with
  | [] => Query.nest keys value = []
  | top :: path =>
      exists inner,
        Query.nest keys value = [(top, inner)]
        /\ path_get path inner = Some (WObj [])
  end.
Proof.
  destruct keys as [|key rest]; [discriminate|]. intros Hplain.
  cbn [plain_path forallb own_path] in *.
  destruct (String.eqb key "__proto__") eqn:Hkey.
  - destruct rest; cbn [Query.nest]; rewrite Hkey; reflexivity.
  - cbn [negb andb] in Hplain. destruct rest as [|next rest]; [discriminate|].
    cbn [Query.nest]. rewrite Hkey.
    exists (WObj (Query.nest (next :: rest) value)). split; [reflexivity|].
    apply nest_own_path. exact Hplain.
Qed.

(** X24: with a search value that is kept and a list of search fields,
    [buildWhere] returns one clause per search field, in order.  The
    clause of a field keeps every property of the base clause except the
    one the field starts with; a plain field holds the pattern
    [%search%] under its name, a dotted field on a declared relation with
    no [__proto__] segment holds it at the end of its path, and a dotted
    field on anything else adds nothing, leaving the base clause as a
    branch of its own.  A dotted field on a declared relation with a
    [__proto__] segment, whose assignment creates no property, does not
    hold the pattern: the clause holds an empty object at the end of the
    segments before the first [__proto__], or is the base clause when that
    is the first segment. *)
Theorem buildWhere_search_clauses (repository : Repository)
    (query : Js.Obj QueryValue) (fields : list string) :
  Query.is_undefined_artifact (Js.get "search" query) = false ->
  Query.falsy (Js.get "search" query) = false ->
  let like :=
    WOp (Like ("%" ++ Query.searchValue (Js.get "search" query) ++ "%")) in
  match Query.whereBase_loop E repository query [] with
  | Throw e => Query.buildWhere E repository (Some query) (Some fields) = Throw e
  | Ok whereBase =>
      exists clauses,
        Query.buildWhere E repository (Some query) (Some fields)
        = Ok (WhereMany clauses)
        /\ List.length clauses = List.length fields
        /\ forall i f clause,
            nth_error fields i = Some f ->
            nth_error clauses i = Some clause ->
            (forall k, k <> top_key f -> Js.get k clause = Js.get k whereBase)
            /\ (Js.includes "." f = false -> Js.get f clause = Some like)
            /\ (Js.includes "." f = true ->
                if Js.arr_includes (top_key f) (relations (metadata repository))
                then if plain_path (Js.split "." f)
                     then path_get (Js.split "." f) (WObj clause) = Some like
                     else match own_path (Js.split "." f) with
                          | [] => clause = whereBase
                          | path => path_get path (WObj clause) = Some (WObj [])
                          end
                else clause = whereBase)
  end.
Proof.
  intros Hartifact Hfalsy like. unfold Query.buildWhere, Query.query_after_search_cleanup.
  rewrite Hartifact, Hfalsy.
  destruct (Query.whereBase_loop E repository query []) as [whereBase|e];
    cbn [res_bind]; [|reflexivity].
  eexists. split; [reflexivity|]. split; [apply length_map|].
  intros i f clause Hf Hclause.
  rewrite nth_error_map, Hf in Hclause. cbn in Hclause. injection Hclause as <-.
  unfold Query.search_clause. fold like.
  destruct (Js.includes "." f) eqn:Hdot.
  - unfold Query.createWhereRelations. fold (top_key f).
    destruct (Js.arr_includes (top_key f) (relations (metadata repository)));
      cbn [negb].
    + destruct (plain_path (Js.split "." f)) eqn:Hplain.
      * destruct (nest_shape (Js.split "." f) like Hplain (split_nonempty _ _))
          as (inner & Hnest & Hpath).
        rewrite Hnest. fold (top_key f). cbn [Js.spread fold_left fst snd].
        split; [|split; [discriminate|]].
        -- intros k Hk. apply get_set_other. congruence.
        -- intros _. pose proof (split_nonempty "." f) as Hne.
           unfold top_key in *. destruct (Js.split "." f) as [|top rest];
             [contradiction|].
           cbn [nth tl path_get] in *. now rewrite get_set_same.
      * pose proof (nest_own_shape (Js.split "." f) like Hplain) as Hshape.
        assert (Htop : forall top path,
                   own_path (Js.split "." f) = top :: path -> top = top_key f).
        { unfold top_key. destruct (Js.split "." f) as [|key rest];
            [discriminate|]. cbn [own_path nth].
          destruct (String.eqb key "__proto__"); [discriminate|].
          now intros top path [= <- _]. }
        destruct (own_path (Js.split "." f)) as [|top path].
        -- rewrite Hshape. cbn [Js.spread fold_left].
           split; [reflexivity|]. split; [discriminate|reflexivity].
        -- destruct Hshape as (inner & Hnest & Hpath). rewrite Hnest.
           cbn [Js.spread fold_left fst snd].
           specialize (Htop top path eq_refl). subst top.
           split; [|split; [discriminate|]].
           ++ intros k Hk. apply get_set_other. congruence.
           ++ intros _. cbn [path_get]. now rewrite get_set_same.
    + cbn [Js.spread fold_left]. split; [reflexivity|]. split; [discriminate|reflexivity].
  - rewrite top_key_plain by exact Hdot. cbn [Js.spread fold_left fst snd].
    split; [|split; [|discriminate]].
    + intros k Hk. apply get_set_other. congruence.
    + intros _. apply get_set_same.
Qed.

(** The operators found so far only prefix what an element adds. *)
Lemma lookup_reducer_memo (memo : list FindOperator) (currentValue : string) :
  Query.lookup_reducer E memo currentValue
  = res_bind (Query.lookup_reducer E [] currentValue)
      (fun ops => Ok (memo ++ ops)%list).
Proof.
  unfold Query.lookup_reducer.
  destruct (Query.or_else _ None) as [name|]; cbn [res_bind].
  - destruct (Query.mapComparisonOperatorToTypeORMFindOperators E _ _);
      reflexivity.
  - now rewrite app_nil_r.
Qed.

Lemma reduce_memo (values : list string) (memo : list FindOperator) :
  Query.reduce E values memo
  = res_bind (Query.reduce E values []) (fun ops => Ok (memo ++ ops)%list).
Proof.
  revert memo. induction values as [|s rest IH]; intros memo; cbn [Query.reduce].
  - cbn. now rewrite app_nil_r.
  - rewrite lookup_reducer_memo.
    destruct (Query.lookup_reducer E [] s) as [ops|e]; cbn [res_bind app];
      [|reflexivity].
    rewrite (IH (memo ++ ops)%list), (IH ops).
    destruct (Query.reduce E rest []) as [more|e]; cbn [res_bind]; [|reflexivity].
    now rewrite app_assoc.
Qed.

(** X25: the find operators of a [string[]] value are those of its
    elements, in order: the operators of two arrays put end to end are the
    operators of the first followed by those of the second, an element
    contributes one operator or none, and the error of one element is the
    error of the whole. *)
Theorem reduce_collects_in_order (first second : list string) :
  Query.reduce E (first ++ second)%list []
  = res_bind (Query.reduce E first []) (fun ops =>
    res_bind (Query.reduce E second []) (fun more => Ok (ops ++ more)%list))
  /\ forall currentValue,
      match Query.lookup_reducer E [] currentValue with
      | Ok ops => (List.length ops <= 1)%nat
      | Throw e => forall rest, Query.reduce E (currentValue :: rest) [] = Throw e
      end.
Proof.
  split.
  - induction first as [|s first IH]; cbn [app Query.reduce].
    + cbn. destruct (Query.reduce E second []); reflexivity.
    + destruct (Query.lookup_reducer E [] s) as [ops|e]; cbn [res_bind];
        [|reflexivity].
      rewrite (reduce_memo (first ++ second)%list ops), (reduce_memo first ops), IH.
      destruct (Query.reduce E first []) as [o1|e]; cbn [res_bind]; [|reflexivity].
      destruct (Query.reduce E second []) as [o2|e]; cbn [res_bind]; [|reflexivity].
      now rewrite app_assoc.
  - intros currentValue.
    destruct (Query.lookup_reducer E [] currentValue) as [ops|e] eqn:Hrun.
    + revert Hrun. unfold Query.lookup_reducer.
      destruct (Query.or_else _ None) as [name|]; cbn [res_bind].
      * destruct (Query.mapComparisonOperatorToTypeORMFindOperators E _ _);
          cbn [res_bind]; [|discriminate]. intros [= <-]. cbn. lia.
      * intros [= <-]. cbn. lia.
    + intros rest. cbn [Query.reduce]. now rewrite Hrun.
Qed.

End BuilderInvariants.

Lemma buildWhere_only_declared_witness :
  Query.declared books "price" = true
  /\ exists entry,
      In entry [("limit", QString "5"); ("price", QString "gt:10");
                ("publisher.name", QString "x")]
      /\ top_key (fst entry) = "price".
Proof.
  exact (buildWhere_only_declared ComparisonOperator books
           [("limit", QString "5"); ("price", QString "gt:10");
            ("publisher.name", QString "x")]
           [("price", WOp (MoreThan (Js.Str "10")))] eq_refl "price"
           (or_introl eq_refl)).
Defined.

Lemma buildWhere_search_clauses_witness :
  Query.buildWhere ComparisonOperator books
    (Some [("price", QString "gt:10"); ("search", QString "em")])
    (Some ["title"; "author.name"; "publisher.name"; "author.__proto__"])
  = Ok (WhereMany
          [[("price", WOp (MoreThan (Js.Str "10"))); ("title", WOp (Like "%em%"))];
           [("price", WOp (MoreThan (Js.Str "10")));
            ("author", WObj [("name", WOp (Like "%em%"))])];
           [("price", WOp (MoreThan (Js.Str "10")))];
           [("price", WOp (MoreThan (Js.Str "10"))); ("author", WObj [])]]).
Proof.
  destruct (buildWhere_search_clauses ComparisonOperator books
              [("price", QString "gt:10"); ("search", QString "em")]
              ["title"; "author.name"; "publisher.name"; "author.__proto__"]
              eq_refl eq_refl)
    as (clauses & Hrun & _).
  etransitivity; [exact Hrun|]. vm_compute in Hrun. injection Hrun as <-.
  reflexivity.
Defined.

(** ** Lookups by a where clause *)

Section ByWhere.

Context {DB : Type} {backend : Backend DB}.

Lemma findOneOptionsWrapper_with_where (repository : Repository)
    (options : option FindManyOptions) (wrapped : FindManyOptions) (w : Where) :
  TypeOrm.findOneOptionsWrapper repository options = Ok wrapped ->
  TypeOrm.findOneOptionsWrapper repository (Some (set_where w wrapped))
  = Ok (set_where w wrapped).
Proof.
  unfold TypeOrm.findOneOptionsWrapper.
  destruct (TypeOrm.handleEmptyOptions repository options) as [o1|e];
    cbn [res_bind]; [|discriminate].
  intros Hfilter.
  destruct (filterOutInvalidSelectValues_settled _ _ _ Hfilter) as (Hagain & _ & Hr).
  assert (Hr1 : exists r, relations_opt wrapped = Some r).
  { rewrite Hr. unfold TypeOrm.handleEmptyRelations.
    destruct (relations_opt o1) as [r|] eqn:Hr1; [rewrite Hr1|cbn]; eauto. }
  destruct Hr1 as (r & Hr1).
  cbn [TypeOrm.handleEmptyOptions res_bind]. unfold TypeOrm.handleEmptyRelations.
  change (relations_opt (set_where w wrapped)) with (relations_opt wrapped).
  rewrite Hr1.
  revert Hagain. unfold TypeOrm.filterOutInvalidSelectValues.
  change (select (set_where w wrapped)) with (select wrapped).
  destruct (select wrapped) as [[s|entries]|] eqn:Hsel.
  - destruct (String.eqb s ""); [reflexivity | discriminate].
  - intros [= Heq]. apply (f_equal select) in Heq. cbn in Heq.
    rewrite Hsel in Heq. injection Heq as Hf. rewrite Hf. f_equal.
    destruct wrapped; cbn in *. unfold set_select, set_where; cbn. congruence.
  - reflexivity.
Qed.

(** X26: [findOneByWhere] hands the repository the wrapped options with
    their where replaced by the where argument; the wrapper runs twice and
    the second pass changes nothing.  When the options are omitted and the
    table has no primary key the call throws before reaching the
    repository, although the default where would have been replaced. *)
Theorem findOneByWhere_query (repository : Repository) (w : Where)
    (options : option FindManyOptions) (db : DB) :
  Query.findOneByWhere repository w options db
  = match TypeOrm.findOneOptionsWrapper repository options with
    | Ok wrapped => repository_findOne repository (set_where w wrapped) db
    | Throw e => (Throw e, db)
    end.
Proof.
  unfold Query.findOneByWhere, Query.findOne, bind, lift_res.
  destruct (TypeOrm.findOneOptionsWrapper repository options) as [wrapped|e] eqn:Hwrap;
    [|reflexivity].
  now rewrite (findOneOptionsWrapper_with_where _ _ _ w Hwrap).
Qed.

End ByWhere.

Section KeylessImport.

Context {DB : Type} {backend : Backend DB}.

Lemma create_row_keyless (repository : Repository) (e : string) (record : Entity)
    (s : BulkUploadResponse * DB) :
  Query.getPrimaryKey repository = Throw e ->
  let P r := created r = 0 /\ ids r = [] /\ errored r = processed r in
  P (fst s) ->
  P (fst (snd (Query.bulk_row (Query.create_row repository record) s))).
Proof.
  intros Hpk P (Hc & Hids & He). rewrite bulk_row_run. subst P.
  unfold Query.create_row, bind, Query.lift_db, Query.create, try_catch, bind, ret,
    throw, lift_res, Query.modify_result.
  rewrite Hpk. cbn [fst snd].
  destruct (repository_save repository record (snd s)) as [[saved|e'] db']; cbn;
    repeat split; (assumption || lia).
Qed.

(** X27: on a table without a primary key, a CREATE import still sends
    every row to [repository.save], but reading the id of a saved row
    throws inside the guarded statements: the result counts every row as
    errored, none as created, and lists no id; a row whose save succeeded
    stays saved and is reported with the message of the missing key. *)
Theorem create_bulk_without_primary_key (repository : Repository) (e : string)
    (data : list Entity) (dedup : option string) (db : DB) :
  Query.getPrimaryKey repository = Throw e ->
  (exists result db',
      Query.bulk repository data CREATE dedup db = (Ok result, db')
      /\ created result = 0 /\ ids result = []
      /\ errored result = total result)
  /\ forall record saved db1,
      repository_save repository record db = (Ok saved, db1) ->
      Query.bulk repository [record] CREATE dedup db
      = (Ok {| total := 1; processed := 1; created := 0; updated := 0; deleted := 0;
               errored := 1; errors := Some [e]; ids := [] |}, db1).
Proof.
  intros Hpk. split.
  - rewrite (bulk_supported_mode repository data CREATE dedup db (or_introl eq_refl)).
    destruct (bulk_function_run repository data CREATE dedup db)
      as (Hrun & Ht & Hp & _).
    rewrite Hrun. eexists. eexists. split; [reflexivity|].
    rewrite Ht, <- Hp. cbn [guarded_row].
    apply (bulk_loop_invariant _ _ data
             (fun record s => create_row_keyless repository e record s Hpk)).
    cbn. repeat split.
  - intros record saved db1 Hsave.
    rewrite (bulk_supported_mode repository [record] CREATE dedup db
               (or_introl eq_refl)).
    unfold Query.with_result. cbn [for_of guarded_row]. unfold bind at 1.
    rewrite bulk_row_run.
    unfold Query.create_row, bind, Query.lift_db, Query.create, try_catch, bind, ret,
      throw, lift_res, Query.modify_result.
    cbn [fst snd]. rewrite Hsave, Hpk. reflexivity.
Qed.

End KeylessImport.

Lemma create_bulk_without_primary_key_witness :
  exists result db',
    Query.bulk (backend := MemoryDb.backend) books_keyless [book 9 "Ulysses"] CREATE
      None {[ "books" := [] ]}
    = (Ok result, db')
    /\ errored result = total result
    /\ db' !! "books" = Some [book 9 "Ulysses"].
Proof.
  destruct (create_bulk_without_primary_key (backend := MemoryDb.backend) books_keyless
              "no primary key was found" [book 9 "Ulysses"] None {[ "books" := [] ]}
              eq_refl)
    as ((result & db' & Hrun & _ & _ & Herrored) & _).
  exists result, db'. split; [exact Hrun|]. split; [exact Herrored|].
  vm_compute in Hrun. injection Hrun as _ <-. vm_compute. reflexivity.
Defined.
